(** * AWS Config rules: ALB_HTTP_TO_HTTPS_REDIRECTION_CHECK and IAM_ROLE_NOT_USED

    A shallow embedding of the two rule evaluators of the repository and
    the properties of their paginated fetches, filters, reductions and
    parameter validation.

    Conventions of the embedding.

    - Python values that the code inspects dynamically (rule parameters,
      parsed JSON documents) are values of [pyval]; dicts are [gmap]s.
      Floats are not represented.
    - Responses of the AWS clients are records.  A key that the code
      tests for, reads with [.get], or that the unit tests leave out of a
      response is an [option] field, and subscripting an absent key raises
      [KeyError].  The other keys are plain fields.
    - Code runs in the monad [W]: it raises a Python exception or returns
      a value, and in both cases it leaves the trace of the [sleep]s and
      client calls it made, in the order it made them.
    - A client operation is described by the script of responses that the
      service gives to the successive calls of one pagination.  A call
      that finds its script exhausted raises [ApiError]; this is also how
      a failing call is represented. *)

From Stdlib Require Import ZArith QArith Lia Ascii String.
From stdpp Require Import base strings gmap list.

Set Warnings "-register-all".
Open Scope string_scope.
Open Scope list_scope.
Open Scope Z_scope.

(** ** Python values *)

Inductive pyval :=
| PNone
| PBool (b : bool)
| PInt (z : Z)
| PStr (s : string)
| PList (l : list pyval)
| PDict (d : gmap string pyval).

(** Truth value of a string: [bool(s)]. *)
Definition str_truthy (s : string) : bool :=
  match s with
  | EmptyString => false
  | String _ _ => true
  end.

(** Truth value of a Python object: [bool(v)]. *)
Definition truthy (v : pyval) : bool :=
  match v with
  | PNone => false
  | PBool b => b
  | PInt z => negb (z =? 0)
  | PStr s => str_truthy s
  | PList l => match l with [] => false | _ :: _ => true end
  | PDict d => negb (bool_decide (d = ∅))
  end.

(** Truth value of an optional string such as the result of
    [response.get('nextToken')]. *)
Definition opt_truthy (o : option string) : bool :=
  match o with
  | Some s => str_truthy s
  | None => false
  end.

(** ** Exceptions, traces and the monad *)

Inductive exn :=
| KeyError (key : string)
| TypeError
| ValueError
| AttributeError
| JSONDecodeError
| ParamValidationError
| ApiError
| InvalidParametersError (msg : string).

(** A JSON text, as carried in a string field of a response: either a
    text that [json.loads] rejects or the document it parses to. *)
Inductive json_text :=
| JsonInvalid
| JsonText (v : pyval).

Record resource_key := {
  key_resourceType : string;
  key_resourceId : string
}.

(** What the code does to the outside world: [sleep], and one
    constructor per client operation, carrying the keyword arguments of
    the call. *)
Inductive event :=
| sleep_ev (period : Q)
| list_discovered_resources_ev
    (resourceType : string) (limit : Z) (includeDeletedResources : bool)
    (nextToken : option string)
| batch_get_resource_config_ev (resourceKeys : list resource_key)
| describe_listeners_ev (LoadBalancerArn : string) (PageSize : Z) (Marker : option string)
| describe_rules_ev (ListenerArn : string) (PageSize : Z) (Marker : option string)
| select_resource_config_ev (Expression : string) (Limit : Z) (NextToken : option string)
| get_role_ev (RoleName : pyval).

Inductive result (A : Type) :=
| Ok (a : A)
| Raise (e : exn).
Arguments Ok {A} a.
Arguments Raise {A} e.

Definition W (A : Type) : Type := (list event * result A)%type.

Definition trace_of {A} (m : W A) : list event := fst m.
Definition result_of {A} (m : W A) : result A := snd m.

Definition ret {A} (a : A) : W A := ([], Ok a).

Definition bind {A B} (m : W A) (f : A → W B) : W B :=
  match m with
  | (t, Ok a) => let '(t', r) := f a in (t ++ t', r)
  | (t, Raise e) => (t, Raise e)
  end.

Notation "'let*' x ':=' m 'in' k" := (bind m (λ x, k))
  (at level 10, x name, m at level 100, k at level 200).
Notation "m '>>' k" := (bind m (λ _, k))
  (at level 190, right associativity).

Definition raise {A} (e : exn) : W A := ([], Raise e).
Definition log (ev : event) : W unit := ([ev], Ok tt).

(** [time.sleep(period)]. *)
Definition sleep (period : Q) : W unit := log (sleep_ev period).

(** One client call: the request is recorded, and the service answers
    with the next response of the script. *)
Definition call_api {R A} (ev : event) (script : list R) (k : R → list R → W A) : W A :=
  log ev >>
  match script with
  | [] => raise ApiError
  | r :: rest => k r rest
  end.

(** [d[key]] on a record field that may be absent. *)
Definition getfield {A} (key : string) (field : option A) : W A :=
  match field with
  | Some a => ret a
  | None => raise (KeyError key)
  end.

(** [v[key]] for a string key. *)
Definition getitem (v : pyval) (key : string) : W pyval :=
  match v with
  | PDict d => getfield key (d !! key)
  | _ => raise TypeError
  end.

(** [v.get(key)]. *)
Definition py_get (v : pyval) (key : string) : W pyval :=
  match v with
  | PDict d => ret (default PNone (d !! key))
  | _ => raise AttributeError
  end.

(** [v == s] for a string [s]. *)
Definition py_eq_str (v : pyval) (s : string) : bool :=
  match v with
  | PStr s' => bool_decide (s' = s)
  | _ => false
  end.

(** [json.loads(text)]. *)
Definition json_loads (text : json_text) : W pyval :=
  match text with
  | JsonInvalid => raise JSONDecodeError
  | JsonText v => ret v
  end.

(** [all(f(x) for x in xs)]: stops at the first [False]. *)
Fixpoint all_ {A} (f : A → W bool) (xs : list A) : W bool :=
  match xs with
  | [] => ret true
  | x :: xs' => let* b := f x in if b then all_ f xs' else ret false
  end.

(** [[x for x in xs if f(x)]]. *)
Fixpoint filter_ {A} (f : A → W bool) (xs : list A) : W (list A) :=
  match xs with
  | [] => ret []
  | x :: xs' =>
      let* b := f x in
      let* rest := filter_ f xs' in
      ret (if b then x :: rest else rest)
  end.

(** [for x in xs: acc = body(x, acc)]. *)
Fixpoint for_ {A S} (xs : list A) (body : A → S → W S) (acc : S) : W S :=
  match xs with
  | [] => ret acc
  | x :: xs' => let* acc' := body x acc in for_ xs' body acc'
  end.

(** Number of [sleep]s in a trace. *)
Definition is_sleep (ev : event) : bool :=
  match ev with
  | sleep_ev _ => true
  | _ => false
  end.
Definition count_sleeps (t : list event) : nat := length (List.filter is_sleep t).

(** ** Evaluations *)

(** Modelled from the spec: rdklib's [ComplianceType] and [Evaluation]
    are imported and not part of the sources; section 3 of the
    specification gives the verdicts and says that a verdict is attached to
    a resource identifier with an optional annotation. *)
Inductive ComplianceType :=
| COMPLIANT
| NON_COMPLIANT
| NOT_APPLICABLE
| ERROR.

Record Evaluation := mkEvaluation {
  complianceType : ComplianceType;
  complianceResourceId : string;
  complianceResourceType : string;
  annotation : option string
}.

(** ** The rule ALB_HTTP_TO_HTTPS_REDIRECTION_CHECK *)

Module ALB.

Definition DEFAULT_RESOURCE_TYPE : string := "AWS::ElasticLoadBalancingV2::LoadBalancer".
Definition DEFAULT_THROTTLE_PERIOD : Q := (1 # 10)%Q.
Definition CONFIG_PAGE_SIZE : Z := 100.
Definition ELB_PAGE_SIZE : Z := 400.

Definition NON_COMPLIANT_ANNOTATION : string :=
  "HTTP listener rule must have HTTP to HTTPS redirection action configured".

(** *** Responses of the clients *)

Record redirect_config := {
  Protocol : option string
}.

Record action := {
  Type_ : string;
  RedirectConfig : option redirect_config
}.

Record listener_rule := {
  RuleArn : string;
  Actions : list action
}.

Record listener := {
  ListenerArn : string;
  SslPolicy : option string
}.

Record describe_listeners_response := {
  Listeners : list listener;
  listeners_NextMarker : option string
}.

Record describe_rules_response := {
  Rules : list listener_rule;
  rules_NextMarker : option string
}.

Record resource_identifier := {
  resourceType : string;
  resourceId : string
}.

Record base_configuration_item := {
  item_resourceType : string;
  item_resourceId : string;
  configuration : option json_text
}.

Record list_discovered_resources_response := {
  resourceIdentifiers : list resource_identifier;
  nextToken : option string
}.

Record batch_get_resource_config_response := {
  baseConfigurationItems : list base_configuration_item;
  unprocessedResourceKeys : option (list resource_key)
}.

(** The elbv2 client: for each load balancer the responses to the
    successive [describe_listeners] calls of one pagination, and for each
    listener those to the successive [describe_rules] calls. *)
Record elbv2_client := {
  describe_listeners : string → list describe_listeners_response;
  describe_rules : string → list describe_rules_response
}.

(** The config client: the responses to the successive
    [list_discovered_resources] calls, and for each list of resource keys
    the responses to the successive [batch_get_resource_config] calls
    that start with these keys. *)
Record config_client := {
  list_discovered_resources : list list_discovered_resources_response;
  batch_get_resource_config : list resource_key → list batch_get_resource_config_response
}.

Record client_factory := {
  build_elbv2 : elbv2_client;
  build_config : config_client
}.

(** *** The predicates *)

Definition is_https_listener (listener : listener) : bool :=
  match SslPolicy listener with
  | Some _ => true
  | None => false
  end.

Definition is_https_redirect_action (action : action) : W bool :=
  if bool_decide (Type_ action = "redirect") then
    let* redirect_config := getfield "RedirectConfig" (RedirectConfig action) in
    let* protocol := getfield "Protocol" (Protocol redirect_config) in
    ret (bool_decide (protocol = "HTTPS"))
  else ret false.

Definition is_listener_rule_compliant (listener_rule : listener_rule) : W bool :=
  all_ is_https_redirect_action (Actions listener_rule).

(** *** The paginated fetches *)

(** The [while resp:] loop of [get_all_listeners].  A response is a dict
    that holds at least the key 'Listeners', hence true; the loop ends
    when [resp] is set to [None].  [script] holds the responses that the
    calls still to come will receive. *)
Fixpoint get_all_listeners_loop (elbv2_arn : string)
    (resp : describe_listeners_response) (script : list describe_listeners_response)
    (items : list listener) : W (list listener) :=
  let items := items ++ Listeners resp in
  match listeners_NextMarker resp with
  | Some marker =>
      sleep DEFAULT_THROTTLE_PERIOD >>
      call_api (describe_listeners_ev elbv2_arn ELB_PAGE_SIZE (Some marker)) script
        (λ resp' script', get_all_listeners_loop elbv2_arn resp' script' items)
  | None => ret items
  end.

Definition get_all_listeners (client : elbv2_client) (elbv2_arn : string) : W (list listener) :=
  call_api (describe_listeners_ev elbv2_arn ELB_PAGE_SIZE None)
    (describe_listeners client elbv2_arn)
    (λ resp script, get_all_listeners_loop elbv2_arn resp script []).

(** The [while resp:] loop of [get_all_listener_rules]. *)
Fixpoint get_all_listener_rules_loop (listener_arn : string)
    (resp : describe_rules_response) (script : list describe_rules_response)
    (items : list listener_rule) : W (list listener_rule) :=
  let items := items ++ Rules resp in
  match rules_NextMarker resp with
  | Some marker =>
      sleep DEFAULT_THROTTLE_PERIOD >>
      call_api (describe_rules_ev listener_arn ELB_PAGE_SIZE (Some marker)) script
        (λ resp' script', get_all_listener_rules_loop listener_arn resp' script' items)
  | None => ret items
  end.

Definition get_all_listener_rules (client : elbv2_client) (listener_arn : string)
    : W (list listener_rule) :=
  call_api (describe_rules_ev listener_arn ELB_PAGE_SIZE None)
    (describe_rules client listener_arn)
    (λ resp script, get_all_listener_rules_loop listener_arn resp script []).

Definition is_listener_compliant (listener : listener) (alb_client : elbv2_client) : W bool :=
  if is_https_listener listener then ret true
  else
    let* listener_rules := get_all_listener_rules alb_client (ListenerArn listener) in
    all_ is_listener_rule_compliant listener_rules.

(** The variant of [is_listener_compliant] that the specification
    compares it with: the short-circuit on HTTPS listeners is left out, the
    rules of the listener are always fetched and evaluated. *)
Definition is_listener_compliant_no_short_circuit
    (listener : listener) (alb_client : elbv2_client) : W bool :=
  let* listener_rules := get_all_listener_rules alb_client (ListenerArn listener) in
  all_ is_listener_rule_compliant listener_rules.

(** *** The resource lister and its filter *)

Definition is_alb (resource : base_configuration_item) : W bool :=
  let* text := getfield "configuration" (configuration resource) in
  let* resource_configuration := json_loads text in
  let* type := py_get resource_configuration "type" in
  ret (py_eq_str type "application").

Definition key_of (elb : resource_identifier) : resource_key :=
  {| key_resourceType := resourceType elb; key_resourceId := resourceId elb |}.

(** The [while resource_keys:] loop.  [script] holds the responses that
    the calls still to come will receive. *)
Fixpoint filter_to_only_albs_loop (script : list batch_get_resource_config_response)
    (resource_keys : list resource_key) (items : list base_configuration_item)
    : W (list base_configuration_item) :=
  match resource_keys with
  | [] => ret items
  | _ :: _ =>
      call_api (batch_get_resource_config_ev resource_keys) script
        (λ response script',
          let* albs := filter_ is_alb (baseConfigurationItems response) in
          let items := items ++ albs in
          match unprocessedResourceKeys response with
          | Some (k :: ks) =>
              sleep DEFAULT_THROTTLE_PERIOD >>
              filter_to_only_albs_loop script' (k :: ks) items
          | Some [] | None => ret items
          end)
  end.

Definition filter_to_only_albs (config_client : config_client)
    (all_elbv2 : list resource_identifier) : W (list base_configuration_item) :=
  let resource_keys := map key_of all_elbv2 in
  filter_to_only_albs_loop (batch_get_resource_config config_client resource_keys)
    resource_keys [].

(** [list_albs] with the response that [list_discovered_resources] gives
    to its call and the rest of the script. *)
Definition list_albs {A} (config_client : config_client) (next_token : option string)
    (script : list list_discovered_resources_response)
    (k : list base_configuration_item * option string →
         list list_discovered_resources_response → W A) : W A :=
  let args_nextToken := if opt_truthy next_token then next_token else None in
  call_api
    (list_discovered_resources_ev DEFAULT_RESOURCE_TYPE CONFIG_PAGE_SIZE false args_nextToken)
    script
    (λ list_resources_response script',
      let* albs := filter_to_only_albs config_client
                     (resourceIdentifiers list_resources_response) in
      k (albs, nextToken list_resources_response) script').

(** The [while next_token:] loop of [get_all_albs]. *)
Fixpoint get_all_albs_loop (config_client : config_client)
    (script : list list_discovered_resources_response)
    (albs : list base_configuration_item) (next_token : option string)
    : W (list base_configuration_item) :=
  if opt_truthy next_token then
    sleep DEFAULT_THROTTLE_PERIOD >>
    list_albs config_client next_token script
      (λ '(more_albs, next_token') script',
        get_all_albs_loop config_client script' (albs ++ more_albs) next_token')
  else ret albs.

Definition get_all_albs (config_client : config_client) : W (list string) :=
  let* albs :=
    list_albs config_client None (list_discovered_resources config_client)
      (λ '(albs, next_token) script,
        get_all_albs_loop config_client script albs next_token) in
  ret (map item_resourceId albs).

(** *** The evaluation *)

(** The body of the [for elb in all_elbv2:] loop. *)
Definition evaluate_periodic_body (alb_client : elbv2_client) (elb : string)
    (evaluations : list Evaluation) : W (list Evaluation) :=
  let* alb_all_listeners := get_all_listeners alb_client elb in
  let* is_alb_compliant :=
    all_ (λ listener, is_listener_compliant listener alb_client) alb_all_listeners in
  if is_alb_compliant then
    ret (evaluations ++ [mkEvaluation COMPLIANT elb DEFAULT_RESOURCE_TYPE None])
  else
    ret (evaluations ++
         [mkEvaluation NON_COMPLIANT elb DEFAULT_RESOURCE_TYPE (Some NON_COMPLIANT_ANNOTATION)]).

Definition evaluate_periodic (client_factory : client_factory) : W (list Evaluation) :=
  let alb_client := build_elbv2 client_factory in
  let config_client := build_config client_factory in
  let* all_elbv2 := get_all_albs config_client in
  for_ all_elbv2 (evaluate_periodic_body alb_client) [].

End ALB.

(** ** The rule IAM_ROLE_NOT_USED *)

Module IAM.

Definition RESOURCE_TYPE : string := "AWS::IAM::Role".
Definition PAGE_SIZE : Z := 20.
Definition DEFAULT_DAYS : Z := 90.

Definition NON_COMPLIANT_ANNOTATION : string :=
  "Ensure that no AWS IAM Role is unused and make an action if unused (e.g. delete the user).".

(** The messages of the parameter errors; [quoted s] is [s] between
    double quotes. *)
Definition quoted (s : string) : string :=
  let dq := String (ascii_of_nat 34) EmptyString in
  String.append dq (String.append s dq).

Definition MISSING_PARAMETER : string :=
  String.append "The Config Rule must have the parameter " (quoted "DaysBeforeUnused").
Definition NOT_AN_INTEGER : string :=
  String.append "The parameter "
    (String.append (quoted "DaysBeforeUnused") " must be a integer").
Definition NEGATIVE : string :=
  String.append "The parameter "
    (String.append (quoted "DaysBeforeUnused") " must be greater than or equal to 0").

(** *** [int()] *)

(** Strings are taken as ASCII text: [int] strips white space at both
    ends, accepts one sign, and then wants decimal digits, where single
    underscores may separate digits.  White space is the space and the
    characters from the horizontal tab to the carriage return (codes 9 to
    13 and 32).  A character outside ASCII counts as neither a space nor a
    digit, and the limit that recent interpreters put on the number of
    digits is not represented. *)
Definition is_space (c : ascii) : bool :=
  let n := Z.of_N (N_of_ascii c) in
  ((9 <=? n) && (n <=? 13)) || (n =? 32).

Definition digit_of (c : ascii) : option Z :=
  let n := Z.of_N (N_of_ascii c) in
  if (48 <=? n) && (n <=? 57) then Some (n - 48) else None.

Fixpoint chars (s : string) : list ascii :=
  match s with
  | EmptyString => []
  | String c s' => c :: chars s'
  end.

Fixpoint lstrip (cs : list ascii) : list ascii :=
  match cs with
  | c :: cs' => if is_space c then lstrip cs' else cs
  | [] => []
  end.

Definition strip (cs : list ascii) : list ascii :=
  rev (lstrip (rev (lstrip cs))).

(** The digits after the sign; [after_digit] tells whether the previous
    character was a digit. *)
Fixpoint digits_value (cs : list ascii) (acc : Z) (after_digit : bool) : option Z :=
  match cs with
  | [] => if after_digit then Some acc else None
  | c :: cs' =>
      match digit_of c with
      | Some d => digits_value cs' (10 * acc + d) true
      | None =>
          if bool_decide (c = "_"%char) && after_digit
          then digits_value cs' acc false
          else None
      end
  end.

Definition int_of_string (s : string) : option Z :=
  match strip (chars s) with
  | c :: cs =>
      if bool_decide (c = "-"%char) then Z.opp <$> digits_value cs 0 false
      else if bool_decide (c = "+"%char) then digits_value cs 0 false
      else digits_value (c :: cs) 0 false
  | [] => None
  end.

(** [int(v)]. *)
Definition py_int (v : pyval) : W Z :=
  match v with
  | PInt z => ret z
  | PBool b => ret (if b then 1 else 0)
  | PStr s =>
      match int_of_string s with
      | Some z => ret z
      | None => raise ValueError
      end
  | PNone | PList _ | PDict _ => raise TypeError
  end.

(** [diff <= v] for an integer [diff]. *)
Definition py_le (diff : Z) (v : pyval) : W bool :=
  match v with
  | PInt z => ret (diff <=? z)
  | PBool b => ret (diff <=? (if b then 1 else 0))
  | PNone | PStr _ | PList _ | PDict _ => raise TypeError
  end.

(** [try: m except ValueError: raise e]. *)
Definition except_ValueError {A} (m : W A) (e : exn) : W A :=
  match m with
  | (t, Raise ValueError) => (t, Raise e)
  | _ => m
  end.

(** *** Times *)

(** A point in time is its number of microseconds since the epoch;
    [(a - b).days] is the number of whole days of the difference, rounded
    towards minus infinity. *)
Definition datetime := Z.
Definition MICROSECONDS_PER_DAY : Z := 86400000000.
Definition timedelta_days (a b : datetime) : Z := (a - b) / MICROSECONDS_PER_DAY.

(** *** Responses of the clients *)

Record role_last_used := {
  LastUsedDate : option datetime;
  Region : option string
}.

Record role := {
  RoleLastUsed : option role_last_used;
  CreateDate : option datetime
}.

Record get_role_response := {
  Role : role
}.

Record select_resource_config_response := {
  Results : list json_text;
  NextToken : option string
}.

(** The truth value of the dict [last_used]: it is true unless the dict
    is empty. *)
Definition role_last_used_truthy (last_used : role_last_used) : bool :=
  match LastUsedDate last_used, Region last_used with
  | None, None => false
  | _, _ => true
  end.

Record config_client := {
  select_resource_config : list select_resource_config_response
}.

(** [get_role] answers [None] for a role it has no answer for. *)
Record iam_client := {
  get_role : string → option get_role_response
}.

Record client_factory := {
  build_iam : iam_client;
  build_config : config_client
}.

Definition sql : string := "select * where resourceType = 'AWS::IAM::Role'".

(** *** The lister *)

(** [json.loads(result)['resourceName']]. *)
Definition resource_name_of (result : json_text) : W pyval :=
  let* document := json_loads result in
  getitem document "resourceName".

(** The generator [describe_roles], consumed by a [for] loop with body
    [body]: each [yield] runs the body once, between the client calls of
    the generator. *)
Fixpoint describe_roles_loop {S} (body : pyval → S → W S)
    (response : select_resource_config_response)
    (script : list select_resource_config_response) (acc : S) : W S :=
  let* acc :=
    for_ (Results response)
      (λ result acc, let* name := resource_name_of result in body name acc)
      acc in
  match NextToken response with
  | Some next_token =>
      call_api (select_resource_config_ev sql PAGE_SIZE (Some next_token)) script
        (λ response' script',
          if str_truthy next_token
          then describe_roles_loop body response' script' acc
          else ret acc)
  | None => ret acc
  end.

Definition describe_roles {S} (config_client : config_client)
    (body : pyval → S → W S) (acc : S) : W S :=
  call_api (select_resource_config_ev sql PAGE_SIZE None)
    (select_resource_config config_client)
    (λ response script, describe_roles_loop body response script acc).

(** [list(describe_roles(config_client))]: the loop that collects what
    the generator yields. *)
Definition collect_names (name : pyval) (names : list pyval) : W (list pyval) :=
  ret (names ++ [name]).

Definition list_describe_roles (config_client : config_client) : W (list pyval) :=
  describe_roles config_client collect_names [].

(** *** The evaluation *)

Section Evaluate.

(** The time at which the module was loaded. *)
Variable CURRENT_TIME : datetime.

Definition call_get_role (iam_client : iam_client) (username : pyval)
    : W get_role_response :=
  log (get_role_ev username) >>
  match username with
  | PStr name =>
      match get_role iam_client name with
      | Some user_data => ret user_data
      | None => raise ApiError
      end
  | _ => raise ParamValidationError
  end.

(** The body of the [for username in describe_roles(config_client):]
    loop.  The identifier of an evaluation is the role name; [get_role]
    has raised before when the name is not a string. *)
Definition evaluate_periodic_body (iam_client : iam_client)
    (valid_rule_parameters : gmap string pyval)
    (username : pyval) (evaluations : list Evaluation) : W (list Evaluation) :=
  let* user_data := call_get_role iam_client username in
  let* last_used := getfield "RoleLastUsed" (RoleLastUsed (Role user_data)) in
  let* diff :=
    if role_last_used_truthy last_used then
      let* last_used_date := getfield "LastUsedDate" (LastUsedDate last_used) in
      ret (timedelta_days CURRENT_TIME last_used_date)
    else
      let* created_on := getfield "CreateDate" (CreateDate (Role user_data)) in
      ret (timedelta_days CURRENT_TIME created_on) in
  let* days := getfield "DaysBeforeUnused" (valid_rule_parameters !! "DaysBeforeUnused") in
  let* unused_for_less := py_le diff days in
  let resource_id := match username with PStr name => name | _ => EmptyString end in
  if unused_for_less then
    ret (evaluations ++ [mkEvaluation COMPLIANT resource_id RESOURCE_TYPE None])
  else
    ret (evaluations ++
         [mkEvaluation NON_COMPLIANT resource_id RESOURCE_TYPE (Some NON_COMPLIANT_ANNOTATION)]).

Definition evaluate_periodic (client_factory : client_factory)
    (valid_rule_parameters : gmap string pyval) : W (list Evaluation) :=
  let iam_client := build_iam client_factory in
  let config_client := build_config client_factory in
  describe_roles config_client
    (evaluate_periodic_body iam_client valid_rule_parameters) [].

End Evaluate.

(** *** The parameters *)

Definition evaluate_parameters (rule_parameters : gmap string pyval)
    : W (gmap string pyval) :=
  match rule_parameters !! "DaysBeforeUnused" with
  | None =>
      raise (InvalidParametersError MISSING_PARAMETER)
  | Some given =>
      let rule_parameters :=
        if negb (truthy given)
        then <["DaysBeforeUnused" := PInt DEFAULT_DAYS]> rule_parameters
        else rule_parameters in
      let* value := getfield "DaysBeforeUnused" (rule_parameters !! "DaysBeforeUnused") in
      let* days :=
        except_ValueError (py_int value) (InvalidParametersError NOT_AN_INTEGER) in
      let rule_parameters := <["DaysBeforeUnused" := PInt days]> rule_parameters in
      if days <? 0 then
        raise (InvalidParametersError NEGATIVE)
      else ret rule_parameters
  end.

End IAM.

(** * Vocabulary of the properties *)

(** A loop body is appending when it computes one element from the item
    and puts it at the end of the accumulator. *)
Definition appending {A V} (g : A → W V) (body : A → list V → W (list V)) : Prop :=
  ∀ x acc, body x acc = (let* v := g x in ret (acc ++ [v])).

(** A script of [N] responses of a paginated operation: every response
    except the last carries a continuation token. *)
Fixpoint paged {R} (token : R → option string) (script : list R) : bool :=
  match script with
  | [] => false
  | [last] => match token last with Some _ => false | None => true end
  | r :: rest => match token r with Some _ => paged token rest | None => false end
  end.

(** Every continuation token of the script is a non-empty string. *)
Definition truthy_tokens {R} (token : R → option string) (script : list R) : bool :=
  forallb (λ r, match token r with Some next_token => str_truthy next_token | None => true end)
    script.

(** [pages] are the role names that the results of the responses hold,
    response by response. *)
Definition role_pages (script : list IAM.select_resource_config_response)
    (pages : list (list pyval)) : Prop :=
  Forall2
    (λ response page,
      Forall2 (λ result name, result_of (IAM.resource_name_of result) = Ok name)
        (IAM.Results response) page)
    script pages.

(** A script of [B] batches: every response except the last returns
    unprocessed keys, the last returns none. *)
Fixpoint batches (script : list ALB.batch_get_resource_config_response) : bool :=
  match script with
  | [] => false
  | [last] =>
      match ALB.unprocessedResourceKeys last with
      | Some (_ :: _) => false
      | Some [] | None => true
      end
  | response :: rest =>
      match ALB.unprocessedResourceKeys response with
      | Some (_ :: _) => batches rest
      | Some [] | None => false
      end
  end.

(** The calls and sleeps of the batches of a script, when the first
    call asks for [resource_keys]: each later call asks for the keys that
    the response before it left unprocessed, and a sleep separates two
    calls. *)
Fixpoint batch_trace (resource_keys : list resource_key)
    (script : list ALB.batch_get_resource_config_response) : list event :=
  match script with
  | [] => []
  | response :: rest =>
      batch_get_resource_config_ev resource_keys ::
      match rest with
      | [] => []
      | _ :: _ =>
          sleep_ev ALB.DEFAULT_THROTTLE_PERIOD ::
          batch_trace (default [] (ALB.unprocessedResourceKeys response)) rest
      end
  end.

(** [is_alb] raises nothing on the item, and what it then returns. *)
Definition is_alb_defined (resource : ALB.base_configuration_item) : bool :=
  match result_of (ALB.is_alb resource) with
  | Ok _ => true
  | Raise _ => false
  end.

Definition is_alb_value (resource : ALB.base_configuration_item) : bool :=
  match result_of (ALB.is_alb resource) with
  | Ok b => b
  | Raise _ => false
  end.

Definition is_batch_call (ev : event) : bool :=
  match ev with
  | batch_get_resource_config_ev _ => true
  | _ => false
  end.

(** The verdict of the ALB rule on a load balancer, from the outcome of
    the reduction over its listeners. *)
Definition alb_verdict (elb : string) (is_alb_compliant : bool) : Evaluation :=
  if is_alb_compliant
  then mkEvaluation COMPLIANT elb ALB.DEFAULT_RESOURCE_TYPE None
  else mkEvaluation NON_COMPLIANT elb ALB.DEFAULT_RESOURCE_TYPE
         (Some "HTTP listener rule must have HTTP to HTTPS redirection action configured").

(** The reduction of the ALB rule over the listeners of a load balancer. *)
Definition alb_compliance (alb_client : ALB.elbv2_client) (elb : string) : W bool :=
  let* alb_all_listeners := ALB.get_all_listeners alb_client elb in
  all_ (λ listener, ALB.is_listener_compliant listener alb_client) alb_all_listeners.

(** The verdict of the IAM rule on a role, from the outcome of the
    comparison of its days without use with the parameter. *)
Definition role_verdict (username : pyval) (unused_for_less : bool) : Evaluation :=
  let resource_id := match username with PStr name => name | _ => EmptyString end in
  if unused_for_less
  then mkEvaluation COMPLIANT resource_id IAM.RESOURCE_TYPE None
  else mkEvaluation NON_COMPLIANT resource_id IAM.RESOURCE_TYPE
         (Some IAM.NON_COMPLIANT_ANNOTATION).

(** The comparison that the IAM rule makes for a role. *)
Definition role_compliance (CURRENT_TIME : IAM.datetime) (iam_client : IAM.iam_client)
    (valid_rule_parameters : gmap string pyval) (username : pyval) : W bool :=
  let* user_data := IAM.call_get_role iam_client username in
  let* last_used := getfield "RoleLastUsed" (IAM.RoleLastUsed (IAM.Role user_data)) in
  let* diff :=
    if IAM.role_last_used_truthy last_used then
      let* last_used_date := getfield "LastUsedDate" (IAM.LastUsedDate last_used) in
      ret (IAM.timedelta_days CURRENT_TIME last_used_date)
    else
      let* created_on := getfield "CreateDate" (IAM.CreateDate (IAM.Role user_data)) in
      ret (IAM.timedelta_days CURRENT_TIME created_on) in
  let* days := getfield "DaysBeforeUnused" (valid_rule_parameters !! "DaysBeforeUnused") in
  IAM.py_le diff days.

(** * Example clients *)

Module Examples.
Import ALB.

Definition https_redirect : action :=
  {| Type_ := "redirect"; RedirectConfig := Some {| Protocol := Some "HTTPS" |} |}.
Definition forward : action :=
  {| Type_ := "forward"; RedirectConfig := None |}.

Definition https_listener : listener :=
  {| ListenerArn := "listener-https"; SslPolicy := Some "ELBSecurityPolicy-2016-08" |}.
Definition http_listener : listener :=
  {| ListenerArn := "listener-http"; SslPolicy := None |}.

Definition forwarding_rules : describe_rules_response :=
  {| Rules := [ {| RuleArn := "rule1"; Actions := [forward] |} ];
     rules_NextMarker := None |}.

(** The load balancer [arn1] has one HTTPS listener; every other one has
    an HTTPS and an HTTP listener.  The rules of every listener forward. *)
Definition listeners_of (elb : string) : list listener :=
  if bool_decide (elb = "arn1") then [https_listener]
  else [https_listener; http_listener].

Definition elbv2 : elbv2_client :=
  {| describe_listeners := λ elb,
       [ {| Listeners := listeners_of elb; listeners_NextMarker := None |} ];
     describe_rules := λ _, [forwarding_rules] |}.

Definition identifier (arn : string) : resource_identifier :=
  {| resourceType := DEFAULT_RESOURCE_TYPE; resourceId := arn |}.

Definition item (type arn : string) : base_configuration_item :=
  {| item_resourceType := DEFAULT_RESOURCE_TYPE;
     item_resourceId := arn;
     configuration := Some (JsonText (PDict {[ "type" := PStr type ]})) |}.

(** Two application load balancers, listed in one page and described in
    one batch. *)
Definition config : config_client :=
  {| list_discovered_resources :=
       [ {| resourceIdentifiers := [identifier "arn1"; identifier "arn2"];
            nextToken := None |} ];
     batch_get_resource_config := λ keys,
       [ {| baseConfigurationItems := map (λ key, item "application" (key_resourceId key)) keys;
            unprocessedResourceKeys := None |} ] |}.

Definition factory : client_factory :=
  {| build_elbv2 := elbv2; build_config := config |}.

(** Three load balancers that [batch_get_resource_config] describes in
    three batches; the second one is a network load balancer. *)
Definition key (arn : string) : resource_key :=
  {| key_resourceType := DEFAULT_RESOURCE_TYPE; key_resourceId := arn |}.

Definition batched_config : config_client :=
  {| list_discovered_resources :=
       [ {| resourceIdentifiers := [identifier "arn1"; identifier "arn2"; identifier "arn3"];
            nextToken := None |} ];
     batch_get_resource_config := λ _,
       [ {| baseConfigurationItems := [item "application" "arn1"];
            unprocessedResourceKeys := Some [key "arn2"; key "arn3"] |};
         {| baseConfigurationItems := [item "network" "arn2"];
            unprocessedResourceKeys := Some [key "arn3"] |};
         {| baseConfigurationItems := [item "application" "arn3"];
            unprocessedResourceKeys := None |} ] |}.

(** A load balancer without listeners and listeners without rules. *)
Definition empty_elbv2 : elbv2_client :=
  {| describe_listeners := λ _, [ {| Listeners := []; listeners_NextMarker := None |} ];
     describe_rules := λ _, [ {| Rules := []; rules_NextMarker := None |} ] |}.

(** Listeners in two pages and rules in two pages. *)
Definition redirecting_rule (arn : string) : listener_rule :=
  {| RuleArn := arn; Actions := [https_redirect] |}.

Definition paged_elbv2 : elbv2_client :=
  {| describe_listeners := λ _,
       [ {| Listeners := [ {| ListenerArn := "listenerArn1"; SslPolicy := None |} ];
            listeners_NextMarker := Some "def" |};
         {| Listeners := [ {| ListenerArn := "listenerArn2"; SslPolicy := None |} ];
            listeners_NextMarker := None |} ];
     describe_rules := λ _,
       [ {| Rules := [redirecting_rule "ruleArn1"]; rules_NextMarker := Some "ghi" |};
         {| Rules := [redirecting_rule "ruleArn2"]; rules_NextMarker := None |} ] |}.

(** Role names in two pages; in [empty_token_roles] the continuation
    token of the first page is the empty string. *)
Definition role_result (name : string) : json_text :=
  JsonText (PDict {[ "resourceName" := PStr name ]}).

Definition paged_roles : IAM.config_client :=
  {| IAM.select_resource_config :=
       [ {| IAM.Results := [role_result "role-a"]; IAM.NextToken := Some "abc" |};
         {| IAM.Results := [role_result "role-b"]; IAM.NextToken := None |} ] |}.

Definition empty_token_roles : IAM.config_client :=
  {| IAM.select_resource_config :=
       [ {| IAM.Results := [role_result "role-a"]; IAM.NextToken := Some EmptyString |};
         {| IAM.Results := [role_result "role-b"]; IAM.NextToken := None |} ] |}.

(** Roles for the IAM rule.  The time is the hundredth day after the
    epoch.  The role [role-a] was used on the day before; every other role
    was created at the epoch and never used. *)
Definition day (n : Z) : IAM.datetime := n * IAM.MICROSECONDS_PER_DAY.
Definition now : IAM.datetime := day 100.

Definition used_role : IAM.get_role_response :=
  {| IAM.Role :=
       {| IAM.RoleLastUsed :=
            Some {| IAM.LastUsedDate := Some (day 99); IAM.Region := Some "us-east-1" |};
          IAM.CreateDate := Some (day 0) |} |}.

Definition never_used_role : IAM.get_role_response :=
  {| IAM.Role :=
       {| IAM.RoleLastUsed := Some {| IAM.LastUsedDate := None; IAM.Region := None |};
          IAM.CreateDate := Some (day 0) |} |}.

Definition iam : IAM.iam_client :=
  {| IAM.get_role := λ name,
       if bool_decide (name = "role-a") then Some used_role else Some never_used_role |}.

Definition iam_factory : IAM.client_factory :=
  {| IAM.build_iam := iam; IAM.build_config := paged_roles |}.

(** A role whose response has no 'RoleLastUsed' key. *)
Definition role_without_last_used : IAM.get_role_response :=
  {| IAM.Role := {| IAM.RoleLastUsed := None; IAM.CreateDate := Some (day 0) |} |}.

Definition iam_factory_without_last_used : IAM.client_factory :=
  {| IAM.build_iam := {| IAM.get_role := λ _, Some role_without_last_used |};
     IAM.build_config := paged_roles |}.

Definition ninety_days : gmap string pyval := {[ "DaysBeforeUnused" := PInt 90 ]}.

End Examples.

(** * Vocabulary of the further properties *)

(** An action that redirects to HTTPS. *)
Definition redirects_to_https (action : ALB.action) : bool :=
  bool_decide (ALB.Type_ action = "redirect") &&
  match ALB.RedirectConfig action with
  | Some redirect_config =>
      match ALB.Protocol redirect_config with
      | Some protocol => bool_decide (protocol = "HTTPS")
      | None => false
      end
  | None => false
  end.

(** The calls and sleeps of one pagination over the responses [used]:
    the first call carries [marker], each later call the token of the
    response before it, and a sleep precedes each later call. *)
Fixpoint page_trace {R} (call : option string → event) (token : R → option string)
    (marker : option string) (used : list R) : list event :=
  match used with
  | [] => []
  | response :: rest =>
      call marker ::
      match rest with
      | [] => []
      | _ :: _ =>
          sleep_ev ALB.DEFAULT_THROTTLE_PERIOD :: page_trace call token (token response) rest
      end
  end.

(** The response carries a continuation token. *)
Definition has_token {R} (token : R → option string) (response : R) : bool :=
  match token response with
  | Some _ => true
  | None => false
  end.

(** The responses of [list_discovered_resources] that a listing uses:
    every one except the last carries a token that is true, the last one
    carries no token or an empty one. *)
Fixpoint listed (used : list ALB.list_discovered_resources_response) : bool :=
  match used with
  | [] => false
  | [last] => negb (opt_truthy (ALB.nextToken last))
  | response :: rest => opt_truthy (ALB.nextToken response) && listed rest
  end.

(** The calls and sleeps of a listing over the responses [used], when
    the first call is made for [next_token]: after each call the
    candidates of the response are filtered, and a sleep precedes each
    later call. *)
Fixpoint albs_trace (config_client : ALB.config_client) (next_token : option string)
    (used : list ALB.list_discovered_resources_response) : list event :=
  match used with
  | [] => []
  | response :: rest =>
      list_discovered_resources_ev ALB.DEFAULT_RESOURCE_TYPE ALB.CONFIG_PAGE_SIZE false
        (if opt_truthy next_token then next_token else None) ::
      trace_of (ALB.filter_to_only_albs config_client (ALB.resourceIdentifiers response)) ++
      match rest with
      | [] => []
      | _ :: _ =>
          sleep_ev ALB.DEFAULT_THROTTLE_PERIOD ::
          albs_trace config_client (ALB.nextToken response) rest
      end
  end.

(** * Further example clients *)

Module MoreExamples.
Import ALB.

(** Candidates in three pages, all application load balancers.  The
    second page carries the empty string as its token. *)
Definition listed_config : config_client :=
  {| list_discovered_resources :=
       [ {| resourceIdentifiers := [Examples.identifier "arn1"; Examples.identifier "arn2"];
            nextToken := Some "abc" |};
         {| resourceIdentifiers := [Examples.identifier "arn3"];
            nextToken := Some EmptyString |};
         {| resourceIdentifiers := [Examples.identifier "arn4"];
            nextToken := None |} ];
     batch_get_resource_config := λ keys,
       [ {| baseConfigurationItems :=
              map (λ key, Examples.item "application" (key_resourceId key)) keys;
            unprocessedResourceKeys := None |} ] |}.

(** A load balancer with an HTTPS listener and two HTTP listeners
    whose rules forward. *)
Definition last_listener : listener :=
  {| ListenerArn := "listener-last"; SslPolicy := None |}.

Definition three_listeners : elbv2_client :=
  {| describe_listeners := λ _,
       [ {| Listeners := [Examples.https_listener; Examples.http_listener; last_listener];
            listeners_NextMarker := None |} ];
     describe_rules := λ _, [Examples.forwarding_rules] |}.

(** The role of the unit tests of the IAM rule: it was used on the day
    before the current time, and its response has no 'CreateDate'. *)
Definition test_last_used : IAM.role_last_used :=
  {| IAM.LastUsedDate := Some (Examples.day 99); IAM.Region := None |}.

Definition test_role : IAM.get_role_response :=
  {| IAM.Role := {| IAM.RoleLastUsed := Some test_last_used; IAM.CreateDate := None |} |}.

Definition test_iam : IAM.iam_client :=
  {| IAM.get_role := λ _, Some test_role |}.

End MoreExamples.

(** The shape of a verdict of a rule: its resource type is the type
    the rule reports on, and it is COMPLIANT without annotation or
    NON_COMPLIANT with the annotation of the rule. *)
Definition verdict_shape (resource_type annotation_text : string) (ev : Evaluation) : Prop :=
  complianceResourceType ev = resource_type ∧
  ((complianceType ev = COMPLIANT ∧ annotation ev = None) ∨
   (complianceType ev = NON_COMPLIANT ∧ annotation ev = Some annotation_text)).

(** Every action of every rule redirects to HTTPS. *)
Definition rules_redirect (rules : list ALB.listener_rule) : bool :=
  forallb (λ rule, forallb redirects_to_https (ALB.Actions rule)) rules.

(** The listener carries 'SslPolicy', or every action of every rule
    that [describe_rules] holds for it redirects to HTTPS. *)
Definition listener_redirects (alb_client : ALB.elbv2_client) (listener : ALB.listener)
    : bool :=
  ALB.is_https_listener listener ||
  rules_redirect
    (concat (map ALB.Rules (ALB.describe_rules alb_client (ALB.ListenerArn listener)))).

(** The calls of a run of the IAM rule over the responses [script]
    that hold the role names [pages], when the first call is made for
    [token]: after each call of [select_resource_config], [get_role] is
    called for the names of the response, and then the next call is
    made. *)
Fixpoint roles_trace (token : option string)
    (script : list IAM.select_resource_config_response) (pages : list (list pyval))
    : list event :=
  match script, pages with
  | response :: rest, page :: pages' =>
      select_resource_config_ev IAM.sql IAM.PAGE_SIZE token ::
      map get_role_ev page ++ roles_trace (IAM.NextToken response) rest pages'
  | _, _ => []
  end.

(** * Properties *)

(** ** The monad *)

Lemma result_of_bind {A B} (m : W A) (f : A → W B) :
  result_of (bind m f) =
  match result_of m with
  | Ok a => result_of (f a)
  | Raise e => Raise e
  end.
Proof.
  destruct m as [t [a | e]]; simpl; [| reflexivity].
  destruct (f a); reflexivity.
Qed.

Lemma trace_of_bind {A B} (m : W A) (f : A → W B) :
  trace_of (bind m f) =
  trace_of m ++ match result_of m with
                | Ok a => trace_of (f a)
                | Raise _ => []
                end.
Proof.
  destruct m as [t [a | e]]; simpl.
  - destruct (f a); reflexivity.
  - symmetry; apply app_nil_r.
Qed.

Lemma W_eq {A} (m m' : W A) :
  trace_of m = trace_of m' → result_of m = result_of m' → m = m'.
Proof. destruct m, m'; simpl; congruence. Qed.

Lemma bind_ret_l {A B} (a : A) (f : A → W B) : bind (ret a) f = f a.
Proof. unfold bind, ret. destruct (f a); reflexivity. Qed.

Lemma bind_assoc {A B C} (m : W A) (f : A → W B) (g : B → W C) :
  bind (bind m f) g = bind m (λ a, bind (f a) g).
Proof.
  destruct m as [t [a | e]]; simpl; [| reflexivity].
  destruct (f a) as [t' [b | e]]; simpl; [| reflexivity].
  destruct (g b) as [t'' r]. by rewrite app_assoc.
Qed.

Lemma bind_ext {A B} (m : W A) (f f' : A → W B) :
  (∀ a, f a = f' a) → bind m f = bind m f'.
Proof.
  intros H. destruct m as [t [a | e]]; simpl; [| reflexivity]. by rewrite H.
Qed.

Lemma result_of_call_api {R A} (ev : event) (script : list R) (k : R → list R → W A) :
  result_of (call_api ev script k) =
  match script with
  | [] => Raise ApiError
  | r :: rest => result_of (k r rest)
  end.
Proof.
  unfold call_api. rewrite result_of_bind. simpl. destruct script; reflexivity.
Qed.

(** ** [all], [filter] and [for] *)

Section Reductions.

Context {A : Type}.

(** When every element has a verdict [p x], [all] returns their
    conjunction. *)
Lemma all_forallb (f : A → W bool) (p : A → bool) (xs : list A) :
  (∀ x, x ∈ xs → result_of (f x) = Ok (p x)) →
  result_of (all_ f xs) = Ok (forallb p xs).
Proof.
  induction xs as [| x xs IH]; intros H; simpl; [reflexivity |].
  rewrite result_of_bind, (H x) by apply list_elem_of_here.
  destruct (p x); simpl; [| reflexivity].
  apply IH. intros y Hy. apply H. by apply list_elem_of_further.
Qed.

(** [all] returns [True] only when every element does. *)
Lemma all_true_inv (f : A → W bool) (xs : list A) :
  result_of (all_ f xs) = Ok true → ∀ x, x ∈ xs → result_of (f x) = Ok true.
Proof.
  induction xs as [| x xs IH]; simpl; intros H y Hy.
  - by apply elem_of_nil in Hy.
  - rewrite result_of_bind in H.
    destruct (result_of (f x)) as [[|] |] eqn:E; try discriminate.
    apply elem_of_cons in Hy as [-> | Hy]; [exact E | by apply IH].
Qed.

(** [all] returns [False] only at a first element that does, after
    elements that all return [True]. *)
Lemma all_false_inv (f : A → W bool) (xs : list A) :
  result_of (all_ f xs) = Ok false →
  ∃ pre x post, xs = pre ++ x :: post ∧
    (∀ y, y ∈ pre → result_of (f y) = Ok true) ∧ result_of (f x) = Ok false.
Proof.
  induction xs as [| x xs IH]; simpl; intros H; [discriminate |].
  rewrite result_of_bind in H.
  destruct (result_of (f x)) as [[|] |] eqn:E; try discriminate.
  - destruct (IH H) as (pre & y & post & -> & Hpre & Hy).
    exists (x :: pre), y, post. split; [reflexivity |]. split; [| exact Hy].
    intros z Hz. apply elem_of_cons in Hz as [-> | Hz]; [exact E | by apply Hpre].
  - exists [], x, xs. split; [reflexivity |]. split; [| exact E].
    intros z Hz. by apply elem_of_nil in Hz.
Qed.

(** Elements that raise nothing are filtered as by their verdicts. *)
Lemma filter_pure (f : A → W bool) (p : A → bool) (xs : list A) :
  (∀ x, x ∈ xs → f x = ret (p x)) →
  filter_ f xs = ret (List.filter p xs).
Proof.
  induction xs as [| x xs IH]; intros H; simpl; [reflexivity |].
  rewrite (H x) by apply list_elem_of_here. rewrite bind_ret_l.
  rewrite IH by (intros y Hy; apply H; by apply list_elem_of_further).
  rewrite bind_ret_l. destruct (p x); reflexivity.
Qed.

End Reductions.

(** A loop whose body appends one computed element per item returns
    the elements computed for the items, in the order of the items. *)
Section AppendingLoops.

Context {A V : Type} (g : A → W V).

Lemma for_appending_inv body (xs : list A) (acc out : list V) :
  appending g body →
  result_of (for_ xs body acc) = Ok out →
  ∃ vs, out = acc ++ vs ∧ Forall2 (λ x v, result_of (g x) = Ok v) xs vs.
Proof.
  intros Hb. revert acc. induction xs as [| x xs IH]; simpl; intros acc H.
  - injection H as <-. exists []. split; [by rewrite app_nil_r | constructor].
  - rewrite result_of_bind, Hb, result_of_bind in H.
    destruct (result_of (g x)) as [v |] eqn:E; [| discriminate]. simpl in H.
    destruct (IH _ H) as (vs & -> & Hvs).
    exists (v :: vs). split; [by rewrite <- app_assoc | by constructor].
Qed.

Lemma for_appending body (xs : list A) (vs acc : list V) :
  appending g body →
  Forall2 (λ x v, result_of (g x) = Ok v) xs vs →
  result_of (for_ xs body acc) = Ok (acc ++ vs).
Proof.
  intros Hb Hvs. revert acc.
  induction Hvs as [| x v xs vs Hx _ IH]; simpl; intros acc.
  - by rewrite app_nil_r.
  - rewrite result_of_bind, Hb, result_of_bind, Hx. simpl.
    rewrite IH. by rewrite <- app_assoc.
Qed.

End AppendingLoops.

(** ** The verdicts of the ALB rule *)

Lemma alb_body_appending (alb_client : ALB.elbv2_client) :
  appending (λ elb, let* b := alb_compliance alb_client elb in ret (alb_verdict elb b))
    (ALB.evaluate_periodic_body alb_client).
Proof.
  intros elb acc. unfold ALB.evaluate_periodic_body, alb_compliance.
  rewrite !bind_assoc. apply bind_ext. intros ls.
  apply bind_ext. intros [|]; by rewrite bind_ret_l.
Qed.

Lemma alb_verdict_id (elb : string) (b : bool) :
  complianceResourceId (alb_verdict elb b) = elb.
Proof. by destruct b. Qed.

(** What a run of the ALB rule returns: one verdict per load balancer
    that [get_all_albs] returned, from the reduction over its listeners. *)
Lemma alb_evaluate_periodic_inv (cf : ALB.client_factory) (evals : list Evaluation) :
  result_of (ALB.evaluate_periodic cf) = Ok evals →
  ∃ albs bs,
    result_of (ALB.get_all_albs (ALB.build_config cf)) = Ok albs ∧
    Forall2 (λ elb b, result_of (alb_compliance (ALB.build_elbv2 cf) elb) = Ok b) albs bs ∧
    evals = zip_with alb_verdict albs bs.
Proof.
  unfold ALB.evaluate_periodic. rewrite result_of_bind.
  destruct (result_of (ALB.get_all_albs _)) as [albs |]; [| discriminate].
  intros H.
  destruct (for_appending_inv _ _ _ _ _ (alb_body_appending _) H) as (vs & -> & Hvs).
  simpl. clear H.
  assert (∃ bs, Forall2 (λ elb b,
            result_of (alb_compliance (ALB.build_elbv2 cf) elb) = Ok b) albs bs
          ∧ vs = zip_with alb_verdict albs bs) as (bs & ? & ?).
  { induction Hvs as [| elb v albs vs Hv _ (bs & Hbs & ->)].
    - exists []. split; [constructor | reflexivity].
    - rewrite result_of_bind in Hv.
      destruct (result_of (alb_compliance _ elb)) as [b |] eqn:E; [| discriminate].
      injection Hv as <-. exists (b :: bs). split; [by constructor | reflexivity]. }
  by exists albs, bs.
Qed.

Lemma alb_evaluate_periodic_run (cf : ALB.client_factory) (albs : list string) (bs : list bool) :
  result_of (ALB.get_all_albs (ALB.build_config cf)) = Ok albs →
  Forall2 (λ elb b, result_of (alb_compliance (ALB.build_elbv2 cf) elb) = Ok b) albs bs →
  result_of (ALB.evaluate_periodic cf) = Ok (zip_with alb_verdict albs bs).
Proof.
  intros Halbs Hbs. unfold ALB.evaluate_periodic. rewrite result_of_bind, Halbs.
  erewrite for_appending; [reflexivity | apply alb_body_appending |].
  clear Halbs. induction Hbs as [| elb b albs' bs' Hb _ IH]; [constructor |].
  simpl. constructor; [| exact IH].
  by rewrite result_of_bind, Hb.
Qed.

(** The reduction over the listeners returns [True] only when
    [is_listener_compliant] does on every listener, and [False] only at a
    first listener on which it returns [False]. *)
Lemma alb_compliance_inv (alb_client : ALB.elbv2_client) (elb : string) (b : bool) :
  result_of (alb_compliance alb_client elb) = Ok b →
  ∃ listeners,
    result_of (ALB.get_all_listeners alb_client elb) = Ok listeners ∧
    if b then
      ∀ listener, listener ∈ listeners →
        result_of (ALB.is_listener_compliant listener alb_client) = Ok true
    else
      ∃ before listener after, listeners = before ++ listener :: after ∧
        (∀ listener', listener' ∈ before →
           result_of (ALB.is_listener_compliant listener' alb_client) = Ok true) ∧
        result_of (ALB.is_listener_compliant listener alb_client) = Ok false.
Proof.
  unfold alb_compliance. rewrite result_of_bind.
  destruct (result_of (ALB.get_all_listeners alb_client elb)) as [listeners |];
    [| discriminate].
  intros H. exists listeners. split; [reflexivity |].
  destruct b; [by apply all_true_inv | by apply all_false_inv].
Qed.

(** C1.  For every load balancer that a run of the ALB rule evaluates:
    when the listeners of the load balancers are fetched and
    [is_listener_compliant] returns the boolean [p listener] on each of
    them, the run returns one verdict per load balancer, which is
    COMPLIANT if [p] holds for all its listeners and otherwise
    NON_COMPLIANT with the annotation "HTTP listener rule must have HTTP
    to HTTPS redirection action configured". *)
Theorem alb_verdict_all_of
    (cf : ALB.client_factory) (albs : list string)
    (listeners_of : string → list ALB.listener) (p : ALB.listener → bool) :
  result_of (ALB.get_all_albs (ALB.build_config cf)) = Ok albs →
  (∀ elb, elb ∈ albs →
     result_of (ALB.get_all_listeners (ALB.build_elbv2 cf) elb) = Ok (listeners_of elb)) →
  (∀ elb listener, elb ∈ albs → listener ∈ listeners_of elb →
     result_of (ALB.is_listener_compliant listener (ALB.build_elbv2 cf)) = Ok (p listener)) →
  result_of (ALB.evaluate_periodic cf) =
  Ok (map (λ elb,
        if forallb p (listeners_of elb)
        then mkEvaluation COMPLIANT elb ALB.DEFAULT_RESOURCE_TYPE None
        else mkEvaluation NON_COMPLIANT elb ALB.DEFAULT_RESOURCE_TYPE
               (Some "HTTP listener rule must have HTTP to HTTPS redirection action configured"))
        albs).
Proof.
  intros Halbs Hls Hp.
  rewrite (alb_evaluate_periodic_run cf albs
             (map (λ elb, forallb p (listeners_of elb)) albs) Halbs).
  - f_equal. clear. induction albs as [| elb albs IH]; [reflexivity |].
    simpl. by rewrite IH.
  - clear Halbs. induction albs as [| elb albs IH]; [constructor |].
    simpl. constructor.
    + unfold alb_compliance. rewrite result_of_bind, Hls by apply list_elem_of_here.
      apply all_forallb. intros listener Hl. apply (Hp elb); [apply list_elem_of_here | exact Hl].
    + apply IH.
      * intros elb' H. apply Hls. by apply list_elem_of_further.
      * intros elb' l H. apply Hp. by apply list_elem_of_further.
Qed.

Lemma alb_verdict_all_of_witness :
  result_of (ALB.evaluate_periodic Examples.factory) =
  Ok [ mkEvaluation COMPLIANT "arn1" ALB.DEFAULT_RESOURCE_TYPE None;
       mkEvaluation NON_COMPLIANT "arn2" ALB.DEFAULT_RESOURCE_TYPE
         (Some "HTTP listener rule must have HTTP to HTTPS redirection action configured") ].
Proof.
  apply (alb_verdict_all_of Examples.factory ["arn1"; "arn2"]
           Examples.listeners_of ALB.is_https_listener).
  - vm_compute. reflexivity.
  - intros elb _. vm_compute. reflexivity.
  - intros elb listener _ _. unfold ALB.is_listener_compliant.
    destruct (ALB.is_https_listener listener); vm_compute; reflexivity.
Defined.

(** C3.  The number of verdicts that a run of the ALB rule returns is the
    number of resources that [get_all_albs] returned, whatever the
    listeners and rules of each resource are: a run that returns has that
    many verdicts, a run returns as soon as the reduction over each
    resource does, and a run over zero resources returns the empty list. *)
Theorem alb_one_verdict_per_resource (cf : ALB.client_factory) (albs : list string) :
  result_of (ALB.get_all_albs (ALB.build_config cf)) = Ok albs →
  (∀ evals, result_of (ALB.evaluate_periodic cf) = Ok evals → length evals = length albs) ∧
  ((∀ elb, elb ∈ albs → ∃ b, result_of (alb_compliance (ALB.build_elbv2 cf) elb) = Ok b) →
   ∃ evals, result_of (ALB.evaluate_periodic cf) = Ok evals ∧ length evals = length albs) ∧
  (albs = [] → result_of (ALB.evaluate_periodic cf) = Ok []).
Proof.
  intros Halbs. split; [| split].
  - intros evals H.
    destruct (alb_evaluate_periodic_inv _ _ H) as (albs' & bs & Halbs' & Hbs & ->).
    rewrite Halbs in Halbs'. injection Halbs' as <-.
    rewrite length_zip_with. apply Forall2_length in Hbs. lia.
  - intros Hall.
    assert (∃ bs, Forall2 (λ elb b,
              result_of (alb_compliance (ALB.build_elbv2 cf) elb) = Ok b) albs bs)
      as (bs & Hbs).
    { clear Halbs. induction albs as [| elb albs IH]; [exists []; constructor |].
      destruct (Hall elb) as (b & Hb); [apply list_elem_of_here |].
      destruct IH as (bs & Hbs); [intros; apply Hall; by apply list_elem_of_further |].
      exists (b :: bs). by constructor. }
    exists (zip_with alb_verdict albs bs). split.
    + by apply alb_evaluate_periodic_run.
    + rewrite length_zip_with. apply Forall2_length in Hbs. lia.
  - intros ->. apply (alb_evaluate_periodic_run cf [] [] Halbs). constructor.
Qed.

Lemma alb_one_verdict_per_resource_witness :
  (∀ evals, result_of (ALB.evaluate_periodic Examples.factory) = Ok evals →
     length evals = 2%nat) ∧
  ((∀ elb, elb ∈ ["arn1"; "arn2"] →
      ∃ b, result_of (alb_compliance Examples.elbv2 elb) = Ok b) →
   ∃ evals, result_of (ALB.evaluate_periodic Examples.factory) = Ok evals ∧
     length evals = 2%nat) ∧
  (["arn1"; "arn2"] = [] → result_of (ALB.evaluate_periodic Examples.factory) = Ok []).
Proof.
  apply (alb_one_verdict_per_resource Examples.factory ["arn1"; "arn2"]).
  vm_compute. reflexivity.
Defined.

(** ** The short-circuit on HTTPS listeners *)

(** C2, as stated, fails: on an HTTPS listener whose rule forwards,
    [is_listener_compliant] returns [True] and the variant without the
    short-circuit returns [False]. *)
Lemma short_circuit_changes_verdict :
  result_of (ALB.is_listener_compliant Examples.https_listener Examples.elbv2) = Ok true ∧
  result_of (ALB.is_listener_compliant_no_short_circuit
               Examples.https_listener Examples.elbv2) = Ok false ∧
  result_of (ALB.is_listener_compliant Examples.https_listener Examples.elbv2) ≠
  result_of (ALB.is_listener_compliant_no_short_circuit
               Examples.https_listener Examples.elbv2).
Proof. vm_compute. repeat split; congruence. Qed.

(** C2, amended.  On a listener without 'SslPolicy' the short-circuit
    changes nothing: [is_listener_compliant] and the variant that always
    fetches the rules return the same result after the same calls.  On a
    listener with 'SslPolicy', [is_listener_compliant] returns [True]
    without any call, whatever the rules are.  Hence the short-circuit
    never turns a [True] of the variant into another result. *)
Theorem short_circuit_only_adds_compliance
    (listener : ALB.listener) (alb_client : ALB.elbv2_client) :
  (ALB.is_https_listener listener = false →
   ALB.is_listener_compliant listener alb_client =
   ALB.is_listener_compliant_no_short_circuit listener alb_client) ∧
  (ALB.is_https_listener listener = true →
   ALB.is_listener_compliant listener alb_client = ([], Ok true)) ∧
  (result_of (ALB.is_listener_compliant_no_short_circuit listener alb_client) = Ok true →
   result_of (ALB.is_listener_compliant listener alb_client) = Ok true).
Proof.
  unfold ALB.is_listener_compliant, ALB.is_listener_compliant_no_short_circuit.
  destruct (ALB.is_https_listener listener); repeat split; intros; try done.
Qed.

Lemma short_circuit_only_adds_compliance_witness :
  ALB.is_listener_compliant Examples.http_listener Examples.elbv2 =
  ALB.is_listener_compliant_no_short_circuit Examples.http_listener Examples.elbv2 ∧
  ALB.is_listener_compliant Examples.https_listener Examples.elbv2 = ([], Ok true).
Proof.
  split.
  - apply (short_circuit_only_adds_compliance Examples.http_listener Examples.elbv2).
    reflexivity.
  - apply (short_circuit_only_adds_compliance Examples.https_listener Examples.elbv2).
    reflexivity.
Defined.

(** ** Empty collections *)

(** C9.  Empty collections of sub-resources are compliant at every
    level: a load balancer without listeners gets the verdict COMPLIANT,
    [is_listener_compliant] returns [True] on a listener without
    'SslPolicy' that has no rules, and [is_listener_rule_compliant]
    returns [True] on a rule whose list of actions is empty. *)
Theorem empty_collections_are_compliant :
  (∀ alb_client elb evaluations,
     result_of (ALB.get_all_listeners alb_client elb) = Ok [] →
     result_of (ALB.evaluate_periodic_body alb_client elb evaluations) =
     Ok (evaluations ++ [mkEvaluation COMPLIANT elb ALB.DEFAULT_RESOURCE_TYPE None])) ∧
  (∀ alb_client listener,
     ALB.is_https_listener listener = false →
     result_of (ALB.get_all_listener_rules alb_client (ALB.ListenerArn listener)) = Ok [] →
     result_of (ALB.is_listener_compliant listener alb_client) = Ok true) ∧
  (∀ listener_rule,
     ALB.Actions listener_rule = [] →
     ALB.is_listener_rule_compliant listener_rule = ret true).
Proof.
  split; [| split].
  - intros c elb evs H. unfold ALB.evaluate_periodic_body.
    rewrite result_of_bind, H. reflexivity.
  - intros c l Hl H. unfold ALB.is_listener_compliant.
    rewrite Hl, result_of_bind, H. reflexivity.
  - intros r H. unfold ALB.is_listener_rule_compliant. rewrite H. reflexivity.
Qed.

Lemma empty_collections_are_compliant_witness :
  result_of (ALB.evaluate_periodic_body Examples.empty_elbv2 "arn1" []) =
  Ok [mkEvaluation COMPLIANT "arn1" ALB.DEFAULT_RESOURCE_TYPE None] ∧
  result_of (ALB.is_listener_compliant Examples.http_listener Examples.empty_elbv2) = Ok true ∧
  ALB.is_listener_rule_compliant {| ALB.RuleArn := "rule"; ALB.Actions := [] |} = ret true.
Proof.
  destruct empty_collections_are_compliant as (Hbalancer & Hlistener & Hrule).
  split; [| split].
  - apply (Hbalancer Examples.empty_elbv2 "arn1" []). reflexivity.
  - apply (Hlistener Examples.empty_elbv2 Examples.http_listener); reflexivity.
  - apply Hrule. reflexivity.
Defined.

(** ** Paginated fetches *)

Lemma paged_cons {R} (token : R → option string) (r : R) (script : list R) :
  paged token (r :: script) = true →
  (script = [] ∧ token r = None) ∨
  (∃ marker, token r = Some marker ∧ paged token script = true).
Proof.
  simpl. destruct script as [| r' script'].
  - destruct (token r); [discriminate | by left].
  - destruct (token r) as [marker |]; [| discriminate]. right. by exists marker.
Qed.

Lemma get_all_listeners_loop_paged (elbv2_arn : string)
    (script : list ALB.describe_listeners_response) :
  ∀ resp items,
    paged ALB.listeners_NextMarker (resp :: script) = true →
    result_of (ALB.get_all_listeners_loop elbv2_arn resp script items) =
    Ok (items ++ concat (map ALB.Listeners (resp :: script))).
Proof.
  induction script as [| resp' script IH]; intros resp items H;
    apply paged_cons in H as [[? Hlast] | (marker & Hmarker & Hrest)]; try discriminate.
  - simpl. rewrite Hlast. simpl. by rewrite app_nil_r.
  - cbn [ALB.get_all_listeners_loop]. rewrite Hmarker.
    rewrite result_of_bind. simpl. rewrite result_of_call_api.
    rewrite IH by exact Hrest. simpl. by rewrite <- app_assoc.
Qed.

Lemma get_all_listener_rules_loop_paged (listener_arn : string)
    (script : list ALB.describe_rules_response) :
  ∀ resp items,
    paged ALB.rules_NextMarker (resp :: script) = true →
    result_of (ALB.get_all_listener_rules_loop listener_arn resp script items) =
    Ok (items ++ concat (map ALB.Rules (resp :: script))).
Proof.
  induction script as [| resp' script IH]; intros resp items H;
    apply paged_cons in H as [[? Hlast] | (marker & Hmarker & Hrest)]; try discriminate.
  - simpl. rewrite Hlast. simpl. by rewrite app_nil_r.
  - cbn [ALB.get_all_listener_rules_loop]. rewrite Hmarker.
    rewrite result_of_bind. simpl. rewrite result_of_call_api.
    rewrite IH by exact Hrest. simpl. by rewrite <- app_assoc.
Qed.

Lemma length_concat_uniform {A} (pages : list (list A)) (k : nat) :
  Forall (λ page, length page = k) pages →
  length (concat pages) = (length pages * k)%nat.
Proof.
  induction 1 as [| page pages Hk _ IH]; [reflexivity |].
  simpl. rewrite length_app, IH, Hk. lia.
Qed.

(** ** The generator of role names *)

Section ForLoops.

Context {X N S : Type} (h : X → W N).

Lemma for_app_result (body : N → S → W S) (xs ys : list N) (acc : S) :
  result_of (for_ (xs ++ ys) body acc) =
  match result_of (for_ xs body acc) with
  | Ok acc' => result_of (for_ ys body acc')
  | Raise e => Raise e
  end.
Proof.
  revert acc. induction xs as [| x xs IH]; intros acc; simpl; [reflexivity |].
  rewrite !result_of_bind. destruct (result_of (body x acc)); [apply IH | reflexivity].
Qed.

(** A loop that first computes a name from each item runs as the loop
    over the names. *)
Lemma for_names (body : N → S → W S) (xs : list X) (ns : list N) (acc : S) :
  Forall2 (λ x n, result_of (h x) = Ok n) xs ns →
  result_of (for_ xs (λ x acc, let* n := h x in body n acc) acc) =
  result_of (for_ ns body acc).
Proof.
  intros H. revert acc. induction H as [| x n xs ns Hx _ IH]; intros acc; simpl;
    [reflexivity |].
  rewrite !result_of_bind, Hx.
  destruct (result_of (body n acc)); [apply IH | reflexivity].
Qed.

Lemma for_names_inv (body : N → S → W S) (xs : list X) (acc out : S) :
  result_of (for_ xs (λ x acc, let* n := h x in body n acc) acc) = Ok out →
  ∃ ns, Forall2 (λ x n, result_of (h x) = Ok n) xs ns.
Proof.
  revert acc. induction xs as [| x xs IH]; intros acc; simpl; intros H.
  - exists []. constructor.
  - rewrite !result_of_bind in H.
    destruct (result_of (h x)) as [n |] eqn:Hx; [| discriminate].
    destruct (result_of (body n acc)) as [acc' |]; [| discriminate].
    destruct (IH _ H) as (ns & Hns). exists (n :: ns). by constructor.
Qed.

End ForLoops.

Lemma for_collect_names (names acc : list pyval) :
  result_of (for_ names IAM.collect_names acc) = Ok (acc ++ names).
Proof.
  revert acc. induction names as [| name names IH]; intros acc; cbn [for_].
  - simpl. by rewrite app_nil_r.
  - rewrite result_of_bind. cbn [IAM.collect_names ret result_of snd].
    rewrite IH. by rewrite <- app_assoc.
Qed.

(** When the generator runs to its end it yields a list of names, and a
    loop over the generator runs as the loop over that list. *)
Lemma describe_roles_loop_names (script : list IAM.select_resource_config_response) :
  ∀ response acc0 out0,
    result_of (IAM.describe_roles_loop IAM.collect_names response script acc0) = Ok out0 →
    ∃ names, out0 = acc0 ++ names ∧
      ∀ S (body : pyval → S → W S) (acc : S),
        result_of (IAM.describe_roles_loop body response script acc) =
        result_of (for_ names body acc).
Proof.
  induction script as [| response' script IH]; intros response acc0 out0;
    cbn [IAM.describe_roles_loop]; rewrite result_of_bind;
    destruct (result_of (for_ (IAM.Results response) _ acc0)) as [out1 |] eqn:Hpage;
    try discriminate;
    destruct (for_names_inv _ _ _ _ _ Hpage) as (page & Hnames);
    rewrite (for_names _ _ _ _ _ Hnames), for_collect_names in Hpage;
    injection Hpage as <-;
    destruct (IAM.NextToken response) as [next_token |] eqn:Htoken.
  - rewrite result_of_call_api. discriminate.
  - intros [= <-]. exists page. split; [reflexivity |]. intros S body acc.
    rewrite result_of_bind, (for_names _ _ _ _ _ Hnames).
    destruct (result_of (for_ page body acc)); reflexivity.
  - rewrite result_of_call_api. destruct (str_truthy next_token) eqn:Htruthy.
    + intros H. destruct (IH _ _ _ H) as (names & -> & Hbody).
      exists (page ++ names). split; [by rewrite app_assoc |]. intros S body acc.
      rewrite result_of_bind, (for_names _ _ _ _ _ Hnames), for_app_result.
      destruct (result_of (for_ page body acc)); [| reflexivity].
      rewrite result_of_call_api. apply Hbody.
    + intros [= <-]. exists page. split; [reflexivity |]. intros S body acc.
      rewrite result_of_bind, (for_names _ _ _ _ _ Hnames).
      destruct (result_of (for_ page body acc)); [| reflexivity].
      by rewrite result_of_call_api.
  - intros [= <-]. exists page. split; [reflexivity |]. intros S body acc.
    rewrite result_of_bind, (for_names _ _ _ _ _ Hnames).
    destruct (result_of (for_ page body acc)); reflexivity.
Qed.

(** A loop over the generator returns only if the generator runs to its
    end. *)
Lemma describe_roles_loop_returns (script : list IAM.select_resource_config_response) :
  ∀ response S (body : pyval → S → W S) (acc out : S) (acc0 : list pyval),
    result_of (IAM.describe_roles_loop body response script acc) = Ok out →
    ∃ out0, result_of (IAM.describe_roles_loop IAM.collect_names response script acc0) = Ok out0.
Proof.
  induction script as [| response' script IH]; intros response S body acc out acc0;
    cbn [IAM.describe_roles_loop]; rewrite !result_of_bind;
    destruct (result_of (for_ (IAM.Results response) _ acc)) as [acc1 |] eqn:Hpage;
    try discriminate;
    destruct (for_names_inv _ _ _ _ _ Hpage) as (page & Hnames);
    rewrite (for_names _ _ _ _ _ Hnames), for_collect_names;
    destruct (IAM.NextToken response) as [next_token |]; rewrite ?result_of_call_api;
    try discriminate; eauto.
  destruct (str_truthy next_token); eauto.
Qed.

Lemma describe_roles_names (config_client : IAM.config_client) (names : list pyval) :
  result_of (IAM.list_describe_roles config_client) = Ok names →
  ∀ S (body : pyval → S → W S) (acc : S),
    result_of (IAM.describe_roles config_client body acc) = result_of (for_ names body acc).
Proof.
  unfold IAM.list_describe_roles, IAM.describe_roles. rewrite result_of_call_api.
  destruct (IAM.select_resource_config config_client) as [| response script]; [discriminate |].
  intros H S body acc. rewrite result_of_call_api.
  destruct (describe_roles_loop_names _ _ _ _ H) as (names' & Heq & Hbody).
  simpl in Heq. subst names'. apply Hbody.
Qed.

Lemma describe_roles_returns (config_client : IAM.config_client)
    {S} (body : pyval → S → W S) (acc out : S) :
  result_of (IAM.describe_roles config_client body acc) = Ok out →
  ∃ names, result_of (IAM.list_describe_roles config_client) = Ok names.
Proof.
  unfold IAM.list_describe_roles, IAM.describe_roles. rewrite !result_of_call_api.
  destruct (IAM.select_resource_config config_client) as [| response script]; [discriminate |].
  apply describe_roles_loop_returns.
Qed.

Lemma describe_roles_loop_paged (script : list IAM.select_resource_config_response) :
  ∀ response pages acc0,
    paged IAM.NextToken (response :: script) = true →
    truthy_tokens IAM.NextToken (response :: script) = true →
    role_pages (response :: script) pages →
    result_of (IAM.describe_roles_loop IAM.collect_names response script acc0) =
    Ok (acc0 ++ concat pages).
Proof.
  induction script as [| response' script IH]; intros response pages acc0 Hpaged Htruthy Hpages;
    apply paged_cons in Hpaged as [[? Hlast] | (next_token & Htoken & Hrest)];
    try discriminate;
    inversion Hpages as [| ? page ? pages' Hpage Hpages']; subst;
    cbn [IAM.describe_roles_loop];
    rewrite result_of_bind, (for_names _ _ _ _ _ Hpage), for_collect_names.
  - inversion Hpages'; subst. rewrite Hlast. simpl. by rewrite app_nil_r.
  - rewrite Htoken, result_of_call_api.
    unfold truthy_tokens in Htruthy. cbn [forallb] in Htruthy. rewrite Htoken in Htruthy.
    apply andb_prop in Htruthy as [-> Htruthy].
    rewrite (IH _ pages') by done. simpl. by rewrite <- app_assoc.
Qed.

(** C4, as stated, fails for [describe_roles]: when the first of two
    responses carries the empty string as its continuation token, the
    role names of the second response are fetched and left out. *)
Lemma describe_roles_drops_page_after_empty_token :
  paged IAM.NextToken (IAM.select_resource_config Examples.empty_token_roles) = true ∧
  role_pages (IAM.select_resource_config Examples.empty_token_roles)
    [[PStr "role-a"]; [PStr "role-b"]] ∧
  result_of (IAM.list_describe_roles Examples.empty_token_roles) = Ok [PStr "role-a"] ∧
  result_of (IAM.list_describe_roles Examples.empty_token_roles) ≠
  Ok (concat [[PStr "role-a"]; [PStr "role-b"]]).
Proof.
  split; [reflexivity |]. split; [repeat constructor |].
  split; [vm_compute; reflexivity | vm_compute; congruence].
Qed.

(** C4, amended.  When a paginated operation answers with [N] responses
    of which every one except the last carries a continuation token,
    [get_all_listeners] and [get_all_listener_rules] return the items of
    the [N] responses, concatenated in the order of the responses, and so
    does [describe_roles] when moreover every continuation token is a
    non-empty string.  When each response holds [k] items these are
    [N * k] items. *)
Theorem paginated_fetch_concatenates_pages :
  (∀ client elbv2_arn,
     paged ALB.listeners_NextMarker (ALB.describe_listeners client elbv2_arn) = true →
     result_of (ALB.get_all_listeners client elbv2_arn) =
     Ok (concat (map ALB.Listeners (ALB.describe_listeners client elbv2_arn)))) ∧
  (∀ client listener_arn,
     paged ALB.rules_NextMarker (ALB.describe_rules client listener_arn) = true →
     result_of (ALB.get_all_listener_rules client listener_arn) =
     Ok (concat (map ALB.Rules (ALB.describe_rules client listener_arn)))) ∧
  (∀ config_client pages,
     paged IAM.NextToken (IAM.select_resource_config config_client) = true →
     truthy_tokens IAM.NextToken (IAM.select_resource_config config_client) = true →
     role_pages (IAM.select_resource_config config_client) pages →
     result_of (IAM.list_describe_roles config_client) = Ok (concat pages)) ∧
  (∀ A (pages : list (list A)) (k : nat),
     Forall (λ page, length page = k) pages →
     length (concat pages) = (length pages * k)%nat).
Proof.
  split; [| split; [| split]].
  - intros client arn H. unfold ALB.get_all_listeners. rewrite result_of_call_api.
    destruct (ALB.describe_listeners client arn) as [| resp script]; [discriminate |].
    by rewrite get_all_listeners_loop_paged.
  - intros client arn H. unfold ALB.get_all_listener_rules. rewrite result_of_call_api.
    destruct (ALB.describe_rules client arn) as [| resp script]; [discriminate |].
    by rewrite get_all_listener_rules_loop_paged.
  - intros cc pages Hpaged Htruthy Hpages.
    unfold IAM.list_describe_roles, IAM.describe_roles. rewrite result_of_call_api.
    destruct (IAM.select_resource_config cc) as [| resp script]; [discriminate |].
    by rewrite (describe_roles_loop_paged _ _ pages).
  - intros A pages k. apply length_concat_uniform.
Qed.

Lemma paginated_fetch_concatenates_pages_witness :
  result_of (ALB.get_all_listeners Examples.paged_elbv2 "arn1") =
  Ok [ {| ALB.ListenerArn := "listenerArn1"; ALB.SslPolicy := None |};
       {| ALB.ListenerArn := "listenerArn2"; ALB.SslPolicy := None |} ] ∧
  result_of (ALB.get_all_listener_rules Examples.paged_elbv2 "listenerArn1") =
  Ok [Examples.redirecting_rule "ruleArn1"; Examples.redirecting_rule "ruleArn2"] ∧
  result_of (IAM.list_describe_roles Examples.paged_roles) =
  Ok [PStr "role-a"; PStr "role-b"].
Proof.
  destruct paginated_fetch_concatenates_pages as (Hlisteners & Hrules & Hroles & _).
  split; [| split].
  - apply (Hlisteners Examples.paged_elbv2 "arn1"). reflexivity.
  - apply (Hrules Examples.paged_elbv2 "listenerArn1"). reflexivity.
  - apply (Hroles Examples.paged_roles [[PStr "role-a"]; [PStr "role-b"]]).
    + reflexivity.
    + reflexivity.
    + repeat constructor.
Defined.

(** ** The filter and its batches *)

Lemma is_alb_trace (resource : ALB.base_configuration_item) :
  trace_of (ALB.is_alb resource) = [].
Proof.
  unfold ALB.is_alb. destruct (ALB.configuration resource) as [[| v] |]; try reflexivity.
  destruct v; reflexivity.
Qed.

Lemma is_alb_defined_ret (resource : ALB.base_configuration_item) :
  is_alb_defined resource = true → ALB.is_alb resource = ret (is_alb_value resource).
Proof.
  unfold is_alb_defined, is_alb_value. intros H.
  apply W_eq; [apply is_alb_trace |].
  destruct (result_of (ALB.is_alb resource)); [reflexivity | discriminate].
Qed.

Lemma filter_to_only_albs_loop_batches
    (script : list ALB.batch_get_resource_config_response) :
  ∀ resource_keys items,
    resource_keys ≠ [] →
    batches script = true →
    forallb is_alb_defined (concat (map ALB.baseConfigurationItems script)) = true →
    ALB.filter_to_only_albs_loop script resource_keys items =
    (batch_trace resource_keys script,
     Ok (items ++ List.filter is_alb_value (concat (map ALB.baseConfigurationItems script)))).
Proof.
  induction script as [| response rest IH]; intros keys items Hkeys Hb Hdef; [discriminate |].
  destruct keys as [| key keys]; [done |].
  cbn [map concat] in Hdef. rewrite forallb_app in Hdef.
  apply andb_prop in Hdef as [Hhere Hrest].
  cbn [ALB.filter_to_only_albs_loop]. unfold call_api.
  rewrite (filter_pure ALB.is_alb is_alb_value).
  2: { intros x Hx. apply is_alb_defined_ret.
       rewrite forallb_forall in Hhere. apply Hhere. by apply list_elem_of_In. }
  rewrite bind_ret_l. cbn [map concat]. rewrite List.filter_app.
  destruct rest as [| response' rest'].
  - simpl in Hb. simpl. rewrite !app_nil_r.
    destruct (ALB.unprocessedResourceKeys response) as [[| ? ?] |];
      try discriminate; reflexivity.
  - cbn [batches] in Hb.
    destruct (ALB.unprocessedResourceKeys response) as [[| key' keys'] |] eqn:Hleft;
      try discriminate.
    rewrite (IH (key' :: keys')) by done.
    unfold sleep, log, bind. simpl. rewrite Hleft. simpl.
    by rewrite <- app_assoc.
Qed.

Lemma batch_trace_more (resource_keys : list resource_key)
    (response response' : ALB.batch_get_resource_config_response)
    (rest : list ALB.batch_get_resource_config_response) :
  batch_trace resource_keys (response :: response' :: rest) =
  batch_get_resource_config_ev resource_keys ::
  sleep_ev ALB.DEFAULT_THROTTLE_PERIOD ::
  batch_trace (default [] (ALB.unprocessedResourceKeys response)) (response' :: rest).
Proof. reflexivity. Qed.

Lemma count_sleeps_batch_trace (script : list ALB.batch_get_resource_config_response) :
  ∀ resource_keys,
    count_sleeps (batch_trace resource_keys script) = (length script - 1)%nat.
Proof.
  unfold count_sleeps.
  induction script as [| response rest IH]; intros keys; [reflexivity |].
  destruct rest as [| response' rest']; [reflexivity |].
  rewrite batch_trace_more. cbn [List.filter is_sleep length].
  rewrite IH. simpl. lia.
Qed.

Lemma count_calls_batch_trace (script : list ALB.batch_get_resource_config_response) :
  ∀ resource_keys,
    length (List.filter is_batch_call (batch_trace resource_keys script)) = length script.
Proof.
  induction script as [| response rest IH]; intros keys; [reflexivity |].
  destruct rest as [| response' rest']; [reflexivity |].
  rewrite batch_trace_more. cbn [List.filter is_batch_call length].
  rewrite IH. reflexivity.
Qed.

(** C5.  When [batch_get_resource_config] answers with [B] batches, of
    which every one except the last returns unprocessed keys, and [is_alb]
    raises on none of the items, [filter_to_only_albs] calls it [B] times,
    first with the keys of the candidates and then each time with the
    keys that the batch before left unprocessed; it returns the items of
    all the batches that satisfy [is_alb], in the order of the batches;
    and it sleeps [B - 1] times, once between two calls and not after
    the last. *)
Theorem filter_to_only_albs_batches
    (config_client : ALB.config_client) (all_elbv2 : list ALB.resource_identifier) :
  let resource_keys := map ALB.key_of all_elbv2 in
  let script := ALB.batch_get_resource_config config_client resource_keys in
  let items := concat (map ALB.baseConfigurationItems script) in
  let run := ALB.filter_to_only_albs config_client all_elbv2 in
  all_elbv2 ≠ [] →
  batches script = true →
  forallb is_alb_defined items = true →
  result_of run = Ok (List.filter is_alb_value items) ∧
  trace_of run = batch_trace resource_keys script ∧
  length (List.filter is_batch_call (trace_of run)) = length script ∧
  count_sleeps (trace_of run) = (length script - 1)%nat.
Proof.
  intros keys script items run Hne Hb Hdef. subst run. unfold ALB.filter_to_only_albs.
  fold keys. fold script.
  rewrite (filter_to_only_albs_loop_batches script keys []); try done.
  - simpl. fold items.
    split; [reflexivity |]. split; [reflexivity |].
    split; [apply count_calls_batch_trace | apply count_sleeps_batch_trace].
  - subst keys. destruct all_elbv2; [done | discriminate].
Qed.

Lemma filter_to_only_albs_batches_witness :
  let all_elbv2 :=
    [Examples.identifier "arn1"; Examples.identifier "arn2"; Examples.identifier "arn3"] in
  let run := ALB.filter_to_only_albs Examples.batched_config all_elbv2 in
  result_of run = Ok [Examples.item "application" "arn1"; Examples.item "application" "arn3"] ∧
  trace_of run =
    [ batch_get_resource_config_ev
        [Examples.key "arn1"; Examples.key "arn2"; Examples.key "arn3"];
      sleep_ev ALB.DEFAULT_THROTTLE_PERIOD;
      batch_get_resource_config_ev [Examples.key "arn2"; Examples.key "arn3"];
      sleep_ev ALB.DEFAULT_THROTTLE_PERIOD;
      batch_get_resource_config_ev [Examples.key "arn3"] ] ∧
  length (List.filter is_batch_call (trace_of run)) = 3%nat ∧
  count_sleeps (trace_of run) = 2%nat.
Proof.
  apply (filter_to_only_albs_batches Examples.batched_config
           [Examples.identifier "arn1"; Examples.identifier "arn2"; Examples.identifier "arn3"]).
  - discriminate.
  - reflexivity.
  - vm_compute. reflexivity.
Defined.

(** ** The parameters of the IAM rule *)

Lemma py_int_trace (v : pyval) : trace_of (IAM.py_int v) = [].
Proof. destruct v; try reflexivity. simpl. by destruct (IAM.int_of_string s). Qed.

Lemma py_int_raises (v : pyval) (e : exn) :
  result_of (IAM.py_int v) = Raise e → e = ValueError ∨ e = TypeError.
Proof.
  destruct v; simpl; try discriminate; try (intros [= <-]; by right).
  destruct (IAM.int_of_string s); [discriminate | intros [= <-]; by left].
Qed.

(** The outcomes of [evaluate_parameters], by cases on the parameter. *)
Lemma evaluate_parameters_cases (rule_parameters : gmap string pyval) :
  IAM.evaluate_parameters rule_parameters =
  match rule_parameters !! "DaysBeforeUnused" with
  | None => raise (InvalidParametersError IAM.MISSING_PARAMETER)
  | Some given =>
      if truthy given then
        match result_of (IAM.py_int given) with
        | Ok days =>
            if days <? 0 then raise (InvalidParametersError IAM.NEGATIVE)
            else ret (<["DaysBeforeUnused" := PInt days]> rule_parameters)
        | Raise ValueError => raise (InvalidParametersError IAM.NOT_AN_INTEGER)
        | Raise e => raise e
        end
      else ret (<["DaysBeforeUnused" := PInt IAM.DEFAULT_DAYS]> rule_parameters)
  end.
Proof.
  unfold IAM.evaluate_parameters.
  destruct (rule_parameters !! "DaysBeforeUnused") as [given |] eqn:Hgiven; [| reflexivity].
  destruct (truthy given) eqn:Htruthy; cbn [negb].
  - rewrite Hgiven. cbn [getfield]. rewrite bind_ret_l.
    pose proof (py_int_trace given) as Htrace.
    destruct (IAM.py_int given) as [t [days | e]]; simpl in Htrace; subst t; simpl.
    + destruct (days <? 0); reflexivity.
    + destruct e; reflexivity.
  - rewrite lookup_insert_eq. cbn [getfield]. rewrite bind_ret_l. simpl.
    by rewrite insert_insert_eq.
Qed.

(** C6, as stated, fails: the empty string cannot be converted to an
    integer, and [evaluate_parameters] raises nothing on it. *)
Lemma empty_string_is_not_rejected :
  result_of (IAM.py_int (PStr EmptyString)) = Raise ValueError ∧
  result_of (IAM.evaluate_parameters {[ "DaysBeforeUnused" := PStr EmptyString ]}) =
  Ok {[ "DaysBeforeUnused" := PInt 90 ]}.
Proof.
  split; [reflexivity |].
  rewrite evaluate_parameters_cases, lookup_singleton_eq. simpl.
  by rewrite insert_singleton_eq.
Qed.

(** C6, amended.  [evaluate_parameters] raises [InvalidParametersError]
    exactly when the parameter DaysBeforeUnused is absent, or its value is
    truthy and either [int] raises [ValueError] on it or the integer it
    converts to is negative.  Whenever it returns, it returns the
    parameters with DaysBeforeUnused set to a non-negative integer: to 90
    when the given value is falsy, and to the integer that a truthy value
    converts to when that is not negative. *)
Theorem evaluate_parameters_validation (rule_parameters : gmap string pyval) :
  ((∃ msg, result_of (IAM.evaluate_parameters rule_parameters) =
           Raise (InvalidParametersError msg)) ↔
   rule_parameters !! "DaysBeforeUnused" = None ∨
   ∃ given, rule_parameters !! "DaysBeforeUnused" = Some given ∧ truthy given = true ∧
     (result_of (IAM.py_int given) = Raise ValueError ∨
      ∃ days, result_of (IAM.py_int given) = Ok days ∧ days < 0)) ∧
  (∀ valid, result_of (IAM.evaluate_parameters rule_parameters) = Ok valid →
     ∃ days, 0 ≤ days ∧ valid = <["DaysBeforeUnused" := PInt days]> rule_parameters) ∧
  (∀ given, rule_parameters !! "DaysBeforeUnused" = Some given → truthy given = false →
     result_of (IAM.evaluate_parameters rule_parameters) =
     Ok (<["DaysBeforeUnused" := PInt 90]> rule_parameters)) ∧
  (∀ given days, rule_parameters !! "DaysBeforeUnused" = Some given → truthy given = true →
     result_of (IAM.py_int given) = Ok days → 0 ≤ days →
     result_of (IAM.evaluate_parameters rule_parameters) =
     Ok (<["DaysBeforeUnused" := PInt days]> rule_parameters)).
Proof.
  rewrite evaluate_parameters_cases.
  split; [| split; [| split]].
  - split.
    + intros (msg & H).
      destruct (rule_parameters !! "DaysBeforeUnused") as [given |]; [| by left].
      right. exists given. split; [reflexivity |].
      destruct (truthy given); [| discriminate]. split; [reflexivity |].
      destruct (result_of (IAM.py_int given)) as [days | e] eqn:Hint.
      * right. exists days. split; [reflexivity |].
        destruct (Z.ltb_spec days 0); [lia | discriminate].
      * left. destruct (py_int_raises _ _ Hint) as [-> | ->]; [reflexivity | discriminate].
    + intros [-> | (given & -> & -> & [-> | (days & -> & Hneg)])].
      * eexists; reflexivity.
      * eexists; reflexivity.
      * destruct (Z.ltb_spec days 0); [eexists; reflexivity | lia].
  - intros valid H.
    destruct (rule_parameters !! "DaysBeforeUnused") as [given |]; [| discriminate].
    destruct (truthy given).
    + destruct (result_of (IAM.py_int given)) as [days | e]; [| destruct e; discriminate].
      destruct (Z.ltb_spec days 0); [discriminate |].
      injection H as <-. by exists days.
    + injection H as <-. by exists 90.
  - intros given -> ->. reflexivity.
  - intros given days -> -> -> Hpos.
    destruct (Z.ltb_spec days 0); [lia | reflexivity].
Qed.

Lemma evaluate_parameters_validation_witness :
  result_of (IAM.evaluate_parameters {[ "DaysBeforeUnused" := PStr "90" ]}) =
  Ok (<["DaysBeforeUnused" := PInt 90]> {[ "DaysBeforeUnused" := PStr "90" ]}) ∧
  ∃ msg, result_of (IAM.evaluate_parameters {[ "DaysBeforeUnused" := PStr "-10" ]}) =
         Raise (InvalidParametersError msg).
Proof.
  split.
  - apply (evaluate_parameters_validation {[ "DaysBeforeUnused" := PStr "90" ]})
      with (given := PStr "90"); [reflexivity | reflexivity | reflexivity | lia].
  - apply (evaluate_parameters_validation {[ "DaysBeforeUnused" := PStr "-10" ]}).
    right. exists (PStr "-10"). split; [reflexivity |]. split; [reflexivity |].
    right. exists (-10). split; [reflexivity | lia].
Defined.

(** C10.  A parameter DaysBeforeUnused that is present and falsy, such
    as the empty string or the number 0, is replaced by 90 and raises
    nothing; so a falsy value never validates to 0, while the string "0"
    validates to 0. *)
Theorem falsy_parameter_becomes_default :
  (∀ rule_parameters given,
     rule_parameters !! "DaysBeforeUnused" = Some given → truthy given = false →
     IAM.evaluate_parameters rule_parameters =
     ret (<["DaysBeforeUnused" := PInt 90]> rule_parameters)) ∧
  (truthy (PStr EmptyString) = false ∧ truthy (PInt 0) = false) ∧
  (∀ rule_parameters given valid,
     rule_parameters !! "DaysBeforeUnused" = Some given → truthy given = false →
     result_of (IAM.evaluate_parameters rule_parameters) = Ok valid →
     valid !! "DaysBeforeUnused" ≠ Some (PInt 0)) ∧
  (∀ rule_parameters,
     rule_parameters !! "DaysBeforeUnused" = Some (PStr "0") →
     IAM.evaluate_parameters rule_parameters =
     ret (<["DaysBeforeUnused" := PInt 0]> rule_parameters)).
Proof.
  split; [| split; [| split]].
  - intros rp given Hgiven Hfalsy.
    by rewrite evaluate_parameters_cases, Hgiven, Hfalsy.
  - split; reflexivity.
  - intros rp given valid Hgiven Hfalsy.
    rewrite evaluate_parameters_cases, Hgiven, Hfalsy. intros [= <-].
    rewrite lookup_insert_eq. discriminate.
  - intros rp Hgiven. by rewrite evaluate_parameters_cases, Hgiven.
Qed.

Lemma falsy_parameter_becomes_default_witness :
  IAM.evaluate_parameters {[ "DaysBeforeUnused" := PInt 0 ]} =
  ret (<["DaysBeforeUnused" := PInt 90]> {[ "DaysBeforeUnused" := PInt 0 ]}) ∧
  IAM.evaluate_parameters {[ "DaysBeforeUnused" := PStr "0" ]} =
  ret (<["DaysBeforeUnused" := PInt 0]> {[ "DaysBeforeUnused" := PStr "0" ]}).
Proof.
  destruct falsy_parameter_becomes_default as (Hfalsy & _ & _ & Hzero).
  split.
  - apply (Hfalsy {[ "DaysBeforeUnused" := PInt 0 ]} (PInt 0)); reflexivity.
  - apply (Hzero {[ "DaysBeforeUnused" := PStr "0" ]}). reflexivity.
Defined.

(** ** The verdicts of the IAM rule *)

Lemma iam_body_appending (CURRENT_TIME : IAM.datetime) (iam_client : IAM.iam_client)
    (valid_rule_parameters : gmap string pyval) :
  appending
    (λ username,
      let* b := role_compliance CURRENT_TIME iam_client valid_rule_parameters username in
      ret (role_verdict username b))
    (IAM.evaluate_periodic_body CURRENT_TIME iam_client valid_rule_parameters).
Proof.
  intros username acc. unfold IAM.evaluate_periodic_body, role_compliance.
  rewrite !bind_assoc. apply bind_ext. intros user_data.
  rewrite !bind_assoc. apply bind_ext. intros last_used.
  rewrite !bind_assoc. apply bind_ext. intros diff.
  rewrite !bind_assoc. apply bind_ext. intros days.
  apply bind_ext. intros [|]; by rewrite bind_ret_l.
Qed.

(** A verdict of the IAM rule carries the role name it was computed for. *)
Lemma role_verdict_name (CURRENT_TIME : IAM.datetime) (iam_client : IAM.iam_client)
    (valid_rule_parameters : gmap string pyval) (username : pyval) (v : Evaluation) :
  result_of (let* b := role_compliance CURRENT_TIME iam_client valid_rule_parameters username in
             ret (role_verdict username b)) = Ok v →
  username = PStr (complianceResourceId v).
Proof.
  rewrite result_of_bind.
  destruct (result_of (role_compliance _ _ _ username)) as [b |] eqn:Hb; [| discriminate].
  intros [= <-].
  destruct username; try (by destruct b);
    unfold role_compliance in Hb; rewrite result_of_bind in Hb; discriminate.
Qed.

(** The comparison for a role that was never used and has a creation
    date. *)
Lemma role_compliance_never_used (CURRENT_TIME : IAM.datetime) (iam_client : IAM.iam_client)
    (valid_rule_parameters : gmap string pyval) (name : string)
    (user_data : IAM.get_role_response) (last_used : IAM.role_last_used)
    (created_on : IAM.datetime) (days : Z) :
  IAM.get_role iam_client name = Some user_data →
  IAM.RoleLastUsed (IAM.Role user_data) = Some last_used →
  IAM.role_last_used_truthy last_used = false →
  IAM.CreateDate (IAM.Role user_data) = Some created_on →
  valid_rule_parameters !! "DaysBeforeUnused" = Some (PInt days) →
  role_compliance CURRENT_TIME iam_client valid_rule_parameters (PStr name) =
  ([get_role_ev (PStr name)], Ok (IAM.timedelta_days CURRENT_TIME created_on <=? days)).
Proof.
  intros Hrole Hlast Hempty Hcreated Hdays.
  unfold role_compliance, IAM.call_get_role. rewrite Hrole.
  cbn -[lookup IAM.timedelta_days Z.leb]. rewrite Hlast.
  cbn -[lookup IAM.timedelta_days Z.leb]. rewrite Hempty, Hcreated.
  cbn -[lookup IAM.timedelta_days Z.leb]. rewrite Hdays. reflexivity.
Qed.

(** C7, as stated, fails: for a role whose response has no
    'RoleLastUsed' key, [evaluate_periodic] raises [KeyError], although the
    role has a creation date. *)
Lemma role_without_last_used_raises :
  IAM.RoleLastUsed (IAM.Role Examples.role_without_last_used) = None ∧
  IAM.CreateDate (IAM.Role Examples.role_without_last_used) = Some (Examples.day 0) ∧
  result_of (IAM.evaluate_periodic Examples.now Examples.iam_factory_without_last_used
               Examples.ninety_days) = Raise (KeyError "RoleLastUsed").
Proof. repeat split. Qed.

(** C7, amended.  For every IAM role whose 'RoleLastUsed' is present and
    empty and whose 'CreateDate' is present, when DaysBeforeUnused is an
    integer, the evaluation of the role raises nothing: it calls
    [get_role] once, compares the days between the creation date and the
    current time with the parameter, and appends exactly one verdict for
    the role; in a run that returns, the verdict at the position of the
    role among the listed roles is that verdict, and the run has as many
    verdicts as there are listed roles. *)
Theorem never_used_role_falls_back_to_creation
    (CURRENT_TIME : IAM.datetime) (iam_client : IAM.iam_client)
    (valid_rule_parameters : gmap string pyval) (name : string)
    (user_data : IAM.get_role_response) (last_used : IAM.role_last_used)
    (created_on : IAM.datetime) (days : Z) :
  IAM.get_role iam_client name = Some user_data →
  IAM.RoleLastUsed (IAM.Role user_data) = Some last_used →
  IAM.role_last_used_truthy last_used = false →
  IAM.CreateDate (IAM.Role user_data) = Some created_on →
  valid_rule_parameters !! "DaysBeforeUnused" = Some (PInt days) →
  let verdict :=
    if IAM.timedelta_days CURRENT_TIME created_on <=? days
    then mkEvaluation COMPLIANT name IAM.RESOURCE_TYPE None
    else mkEvaluation NON_COMPLIANT name IAM.RESOURCE_TYPE (Some IAM.NON_COMPLIANT_ANNOTATION) in
  (∀ evaluations,
     IAM.evaluate_periodic_body CURRENT_TIME iam_client valid_rule_parameters
       (PStr name) evaluations =
     ([get_role_ev (PStr name)], Ok (evaluations ++ [verdict]))) ∧
  (∀ config_client names evals (i : nat),
     result_of (IAM.list_describe_roles config_client) = Ok names →
     result_of (IAM.evaluate_periodic CURRENT_TIME
                  {| IAM.build_iam := iam_client; IAM.build_config := config_client |}
                  valid_rule_parameters) = Ok evals →
     names !! i = Some (PStr name) →
     evals !! i = Some verdict ∧ length evals = length names).
Proof.
  intros Hrole Hlast Hempty Hcreated Hdays verdict.
  pose proof (role_compliance_never_used CURRENT_TIME _ _ _ _ _ _ _
                Hrole Hlast Hempty Hcreated Hdays) as Hcompliance.
  split.
  - intros evaluations. rewrite iam_body_appending, Hcompliance. subst verdict.
    destruct (_ <=? _); reflexivity.
  - intros cc names evals i Hnames Hrun Hi. unfold IAM.evaluate_periodic in Hrun.
    cbn [IAM.build_iam IAM.build_config] in Hrun.
    rewrite (describe_roles_names _ _ Hnames) in Hrun.
    destruct (for_appending_inv _ _ _ _ _ (iam_body_appending _ _ _) Hrun)
      as (vs & -> & Hvs).
    split; [| by apply Forall2_length in Hvs].
    destruct (Forall2_lookup_l _ _ _ _ _ Hvs Hi) as (v & Hv & Hverdict).
    simpl. rewrite Hv. f_equal.
    rewrite result_of_bind, Hcompliance in Hverdict. simpl in Hverdict.
    injection Hverdict as <-. subst verdict. by destruct (_ <=? _).
Qed.

Lemma never_used_role_falls_back_to_creation_witness :
  let verdict :=
    mkEvaluation NON_COMPLIANT "role-b" IAM.RESOURCE_TYPE (Some IAM.NON_COMPLIANT_ANNOTATION) in
  (∀ evaluations,
     IAM.evaluate_periodic_body Examples.now Examples.iam Examples.ninety_days
       (PStr "role-b") evaluations =
     ([get_role_ev (PStr "role-b")], Ok (evaluations ++ [verdict]))) ∧
  (∀ config_client names evals (i : nat),
     result_of (IAM.list_describe_roles config_client) = Ok names →
     result_of (IAM.evaluate_periodic Examples.now
                  {| IAM.build_iam := Examples.iam; IAM.build_config := config_client |}
                  Examples.ninety_days) = Ok evals →
     names !! i = Some (PStr "role-b") →
     evals !! i = Some verdict ∧ length evals = length names).
Proof.
  apply (never_used_role_falls_back_to_creation Examples.now Examples.iam
           Examples.ninety_days "role-b" Examples.never_used_role
           {| IAM.LastUsedDate := None; IAM.Region := None |} (Examples.day 0) 90);
    reflexivity.
Defined.

(** ** The order of the verdicts *)

(** C8.  The verdicts that a run returns are in the order in which the
    lister discovered the resources: the identifiers of the verdicts of
    the ALB rule are the list that [get_all_albs] returned, and the
    identifiers of the verdicts of the IAM rule are the names that
    [describe_roles] yielded, so that the verdict at each position belongs
    to the resource at that position.  A run returns such a list as soon
    as the evaluation of each resource returns. *)
Theorem verdicts_follow_discovery_order
    (cf : ALB.client_factory) (albs : list string)
    (CURRENT_TIME : IAM.datetime) (iam_cf : IAM.client_factory)
    (valid_rule_parameters : gmap string pyval) (names : list pyval) :
  result_of (ALB.get_all_albs (ALB.build_config cf)) = Ok albs →
  result_of (IAM.list_describe_roles (IAM.build_config iam_cf)) = Ok names →
  (∀ evals,
     result_of (ALB.evaluate_periodic cf) = Ok evals →
     map complianceResourceId evals = albs ∧
     ∀ (i : nat) elb, albs !! i = Some elb →
       complianceResourceId <$> evals !! i = Some elb) ∧
  ((∀ elb, elb ∈ albs →
      ∃ b, result_of (alb_compliance (ALB.build_elbv2 cf) elb) = Ok b) →
   ∃ evals,
     result_of (ALB.evaluate_periodic cf) = Ok evals ∧
     map complianceResourceId evals = albs ∧
     ∀ (i : nat) elb, albs !! i = Some elb →
       complianceResourceId <$> evals !! i = Some elb) ∧
  (∀ evals,
     result_of (IAM.evaluate_periodic CURRENT_TIME iam_cf valid_rule_parameters) = Ok evals →
     map (λ ev, PStr (complianceResourceId ev)) evals = names ∧
     ∀ (i : nat) name, names !! i = Some name →
       (λ ev, PStr (complianceResourceId ev)) <$> evals !! i = Some name) ∧
  ((∀ name, name ∈ names →
      ∃ b, result_of (role_compliance CURRENT_TIME (IAM.build_iam iam_cf)
                        valid_rule_parameters name) = Ok b) →
   ∃ evals,
     result_of (IAM.evaluate_periodic CURRENT_TIME iam_cf valid_rule_parameters) = Ok evals ∧
     map (λ ev, PStr (complianceResourceId ev)) evals = names ∧
     ∀ (i : nat) name, names !! i = Some name →
       (λ ev, PStr (complianceResourceId ev)) <$> evals !! i = Some name).
Proof.
  intros Halbs Hnames.
  assert (∀ evals,
            result_of (ALB.evaluate_periodic cf) = Ok evals →
            map complianceResourceId evals = albs ∧
            ∀ (i : nat) elb, albs !! i = Some elb →
              complianceResourceId <$> evals !! i = Some elb) as Halb_order.
  { intros evals Hrun.
    assert (map complianceResourceId evals = albs) as Hmap.
    { destruct (alb_evaluate_periodic_inv _ _ Hrun) as (albs' & bs & Halbs' & Hbs & ->).
      rewrite Halbs in Halbs'. injection Halbs' as <-. clear Halbs Hrun.
      induction Hbs as [| elb b albs bs _ _ IH]; [reflexivity |].
      simpl. by rewrite alb_verdict_id, IH. }
    split; [exact Hmap |]. intros i elb Hi.
    rewrite <- list_lookup_fmap. change (fmap ?f ?l) with (map f l). by rewrite Hmap. }
  assert (∀ evals,
            result_of (IAM.evaluate_periodic CURRENT_TIME iam_cf valid_rule_parameters) =
              Ok evals →
            map (λ ev, PStr (complianceResourceId ev)) evals = names ∧
            ∀ (i : nat) name, names !! i = Some name →
              (λ ev, PStr (complianceResourceId ev)) <$> evals !! i = Some name)
    as Hiam_order.
  { intros evals Hrun.
    assert (map (λ ev, PStr (complianceResourceId ev)) evals = names) as Hmap.
    { unfold IAM.evaluate_periodic in Hrun.
      rewrite (describe_roles_names _ _ Hnames) in Hrun.
      destruct (for_appending_inv _ _ _ _ _ (iam_body_appending _ _ _) Hrun)
        as (vs & -> & Hvs).
      simpl. clear Hrun Hnames.
      induction Hvs as [| name v names vs Hv _ IH]; [reflexivity |].
      simpl. by rewrite IH, <- (role_verdict_name _ _ _ _ _ Hv). }
    split; [exact Hmap |]. intros i name Hi.
    rewrite <- list_lookup_fmap. change (fmap ?f ?l) with (map f l). by rewrite Hmap. }
  split; [exact Halb_order |]. split; [| split; [exact Hiam_order |]].
  - intros Hall.
    assert (∃ bs, Forall2 (λ elb b,
              result_of (alb_compliance (ALB.build_elbv2 cf) elb) = Ok b) albs bs)
      as (bs & Hbs).
    { clear Halbs Halb_order. induction albs as [| elb albs IH]; [exists []; constructor |].
      destruct (Hall elb) as (b & Hb); [apply list_elem_of_here |].
      destruct IH as (bs & Hbs); [intros; apply Hall; by apply list_elem_of_further |].
      exists (b :: bs). by constructor. }
    pose proof (alb_evaluate_periodic_run _ _ _ Halbs Hbs) as Hrun.
    exists (zip_with alb_verdict albs bs). split; [exact Hrun |]. by apply Halb_order.
  - intros Hall.
    assert (∃ bs, Forall2 (λ name b,
              result_of (role_compliance CURRENT_TIME (IAM.build_iam iam_cf)
                           valid_rule_parameters name) = Ok b) names bs)
      as (bs & Hbs).
    { clear Hnames Hiam_order. induction names as [| name names IH]; [exists []; constructor |].
      destruct (Hall name) as (b & Hb); [apply list_elem_of_here |].
      destruct IH as (bs & Hbs); [intros; apply Hall; by apply list_elem_of_further |].
      exists (b :: bs). by constructor. }
    assert (result_of (IAM.evaluate_periodic CURRENT_TIME iam_cf valid_rule_parameters) =
            Ok ([] ++ zip_with role_verdict names bs)) as Hrun.
    { unfold IAM.evaluate_periodic. rewrite (describe_roles_names _ _ Hnames).
      apply (for_appending _ _ _ _ _ (iam_body_appending _ _ _)).
      clear Hnames Hiam_order Hall.
      induction Hbs as [| name b names bs Hb _ IH]; [constructor |].
      simpl. constructor; [| exact IH]. by rewrite result_of_bind, Hb. }
    exists ([] ++ zip_with role_verdict names bs). split; [exact Hrun |].
    by apply Hiam_order.
Qed.

Lemma verdicts_follow_discovery_order_witness :
  (∃ evals,
     result_of (ALB.evaluate_periodic Examples.factory) = Ok evals ∧
     map complianceResourceId evals = ["arn1"; "arn2"] ∧
     ∀ (i : nat) elb, ["arn1"; "arn2"] !! i = Some elb →
       complianceResourceId <$> evals !! i = Some elb) ∧
  (∃ evals,
     result_of (IAM.evaluate_periodic Examples.now Examples.iam_factory
                  Examples.ninety_days) = Ok evals ∧
     map (λ ev, PStr (complianceResourceId ev)) evals = [PStr "role-a"; PStr "role-b"] ∧
     ∀ (i : nat) name, [PStr "role-a"; PStr "role-b"] !! i = Some name →
       (λ ev, PStr (complianceResourceId ev)) <$> evals !! i = Some name).
Proof.
  destruct (verdicts_follow_discovery_order Examples.factory ["arn1"; "arn2"]
              Examples.now Examples.iam_factory Examples.ninety_days
              [PStr "role-a"; PStr "role-b"])
    as (_ & Halb & _ & Hiam).
  - vm_compute. reflexivity.
  - vm_compute. reflexivity.
  - split.
    + apply Halb. intros elb Helb.
      apply elem_of_cons in Helb as [-> | Helb]; [exists true; vm_compute; reflexivity |].
      apply list_elem_of_singleton in Helb as ->. exists false. vm_compute. reflexivity.
    + apply Hiam. intros name Hname.
      apply elem_of_cons in Hname as [-> | Hname]; [exists true; vm_compute; reflexivity |].
      apply list_elem_of_singleton in Hname as ->. exists false. vm_compute. reflexivity.
Defined.

(** ** Runs of the unit tests *)

(** The calls of the test of the pagination of [describe_listeners] and
    of [describe_rules], with the sleeps between the pages. *)
Example paginated_run_trace :
  ALB.evaluate_periodic_body Examples.paged_elbv2 "arn1" [] =
  ([ describe_listeners_ev "arn1" 400 None;
     sleep_ev ALB.DEFAULT_THROTTLE_PERIOD;
     describe_listeners_ev "arn1" 400 (Some "def");
     describe_rules_ev "listenerArn1" 400 None;
     sleep_ev ALB.DEFAULT_THROTTLE_PERIOD;
     describe_rules_ev "listenerArn1" 400 (Some "ghi");
     describe_rules_ev "listenerArn2" 400 None;
     sleep_ev ALB.DEFAULT_THROTTLE_PERIOD;
     describe_rules_ev "listenerArn2" 400 (Some "ghi") ],
   Ok [mkEvaluation COMPLIANT "arn1" ALB.DEFAULT_RESOURCE_TYPE None]).
Proof. vm_compute. reflexivity. Qed.

(** A load balancer with only HTTPS listeners is compliant without any
    call of [describe_rules]. *)
Example https_only_run_trace :
  ALB.evaluate_periodic_body Examples.elbv2 "arn1" [] =
  ([describe_listeners_ev "arn1" 400 None],
   Ok [mkEvaluation COMPLIANT "arn1" ALB.DEFAULT_RESOURCE_TYPE None]).
Proof. vm_compute. reflexivity. Qed.

(** The parameters of the tests of [evaluate_parameters]. *)
Example invalid_params_strings :
  result_of (IAM.evaluate_parameters {[ "DaysBeforeUnused" := PStr "sdfsdf" ]}) =
  Raise (InvalidParametersError IAM.NOT_AN_INTEGER).
Proof. vm_compute. reflexivity. Qed.

Example invalid_params_negative :
  result_of (IAM.evaluate_parameters {[ "DaysBeforeUnused" := PStr "-10" ]}) =
  Raise (InvalidParametersError IAM.NEGATIVE).
Proof. vm_compute. reflexivity. Qed.

(** A run of the IAM rule over two pages of roles: the names are
    yielded between the calls of the generator. *)
Example iam_run :
  IAM.evaluate_periodic Examples.now Examples.iam_factory Examples.ninety_days =
  ([ select_resource_config_ev IAM.sql 20 None;
     get_role_ev (PStr "role-a");
     select_resource_config_ev IAM.sql 20 (Some "abc");
     get_role_ev (PStr "role-b") ],
   Ok [ mkEvaluation COMPLIANT "role-a" IAM.RESOURCE_TYPE None;
        mkEvaluation NON_COMPLIANT "role-b" IAM.RESOURCE_TYPE
          (Some IAM.NON_COMPLIANT_ANNOTATION) ]).
Proof. vm_compute. reflexivity. Qed.

(** * Further properties *)

(** ** The predicates on actions and rules *)

Lemma is_https_redirect_action_trace (action : ALB.action) :
  trace_of (ALB.is_https_redirect_action action) = [].
Proof.
  unfold ALB.is_https_redirect_action.
  destruct (bool_decide _); [| reflexivity].
  destruct (ALB.RedirectConfig action) as [rc |]; [| reflexivity].
  simpl. destruct (ALB.Protocol rc); reflexivity.
Qed.

Lemma is_https_redirect_action_true (action : ALB.action) :
  result_of (ALB.is_https_redirect_action action) = Ok true ↔
  redirects_to_https action = true.
Proof.
  unfold ALB.is_https_redirect_action, redirects_to_https.
  destruct (bool_decide (ALB.Type_ action = "redirect")); simpl; [| done].
  destruct (ALB.RedirectConfig action) as [rc |]; simpl; [| done].
  destruct (ALB.Protocol rc) as [protocol |]; simpl; [| done].
  destruct (bool_decide (protocol = "HTTPS")); done.
Qed.

Lemma all_true_iff {A} (f : A → W bool) (p : A → bool) (xs : list A) :
  (∀ x, result_of (f x) = Ok true ↔ p x = true) →
  result_of (all_ f xs) = Ok true ↔ forallb p xs = true.
Proof.
  intros Hp. induction xs as [| x xs IH]; simpl; [done |].
  rewrite result_of_bind, andb_true_iff, <- IH, <- Hp.
  destruct (result_of (f x)) as [[|] |]; simpl; split;
    try discriminate; try tauto; intros [? _]; discriminate.
Qed.

(** X1.  [is_listener_rule_compliant] returns [True] exactly on the
    rules of which every action has the type 'redirect' and a redirect
    configuration with the protocol 'HTTPS'; it makes no call. *)
Theorem rule_compliant_iff_all_actions_redirect (listener_rule : ALB.listener_rule) :
  (result_of (ALB.is_listener_rule_compliant listener_rule) = Ok true ↔
   forallb redirects_to_https (ALB.Actions listener_rule) = true) ∧
  trace_of (ALB.is_listener_rule_compliant listener_rule) = [].
Proof.
  unfold ALB.is_listener_rule_compliant. split.
  - apply all_true_iff, is_https_redirect_action_true.
  - induction (ALB.Actions listener_rule) as [| action actions IH]; [reflexivity |].
    simpl. rewrite trace_of_bind, is_https_redirect_action_trace. simpl.
    destruct (result_of _) as [[|] |]; [exact IH | reflexivity | reflexivity].
Qed.

Lemma all_first_outcome {A} (f : A → W bool) (before after : list A) (x : A) :
  (∀ y, y ∈ before → result_of (f y) = Ok true) →
  result_of (all_ f (before ++ x :: after)) =
  match result_of (f x) with
  | Ok true => result_of (all_ f after)
  | other => other
  end.
Proof.
  induction before as [| y before IH]; intros H; simpl.
  - rewrite result_of_bind. by destruct (result_of (f x)) as [[|] |].
  - rewrite result_of_bind, (H y) by apply list_elem_of_here.
    apply IH. intros z Hz. apply H. by apply list_elem_of_further.
Qed.

(** X2.  What [is_listener_rule_compliant] does at the first action
    that does not redirect to HTTPS, whatever the actions after it are:
    an action of another type gives [False], also when it has no
    'RedirectConfig'; a redirect action to another protocol gives [False];
    a redirect action without 'RedirectConfig' raises [KeyError], and so
    does one whose configuration has no 'Protocol'. *)
Theorem rule_outcome_at_first_other_action
    (listener_rule : ALB.listener_rule) (before after : list ALB.action)
    (action : ALB.action) :
  ALB.Actions listener_rule = before ++ action :: after →
  forallb redirects_to_https before = true →
  redirects_to_https action = false →
  result_of (ALB.is_listener_rule_compliant listener_rule) =
  if bool_decide (ALB.Type_ action = "redirect") then
    match ALB.RedirectConfig action with
    | None => Raise (KeyError "RedirectConfig")
    | Some redirect_config =>
        match ALB.Protocol redirect_config with
        | None => Raise (KeyError "Protocol")
        | Some _ => Ok false
        end
    end
  else Ok false.
Proof.
  intros Hactions Hbefore Haction. unfold ALB.is_listener_rule_compliant.
  rewrite Hactions, all_first_outcome.
  2: { intros y Hy. apply is_https_redirect_action_true.
       rewrite forallb_forall in Hbefore. apply Hbefore. by apply list_elem_of_In. }
  unfold redirects_to_https in Haction. unfold ALB.is_https_redirect_action.
  destruct (bool_decide (ALB.Type_ action = "redirect")); [| reflexivity].
  destruct (ALB.RedirectConfig action) as [rc |]; [| reflexivity].
  simpl. destruct (ALB.Protocol rc) as [protocol |]; [| reflexivity].
  simpl in *. by rewrite Haction.
Qed.

Lemma rule_outcome_at_first_other_action_witness :
  result_of (ALB.is_listener_rule_compliant
               {| ALB.RuleArn := "rule";
                  ALB.Actions :=
                    [ Examples.https_redirect; Examples.forward;
                      {| ALB.Type_ := "redirect"; ALB.RedirectConfig := None |} ] |}) =
  Ok false.
Proof.
  apply (rule_outcome_at_first_other_action _ [Examples.https_redirect]
           [ {| ALB.Type_ := "redirect"; ALB.RedirectConfig := None |} ] Examples.forward);
    reflexivity.
Defined.

(** ** The filter on application load balancers *)

(** X3.  [is_alb] returns [True] exactly on the items whose
    configuration is a JSON object with the string 'application' under
    'type'.  On a JSON object it raises nothing, also when 'type' is
    absent.  It raises [KeyError] when the item has no 'configuration',
    [JSONDecodeError] when the configuration is no JSON text, and
    [AttributeError] when it is a JSON text of something else than an
    object. *)
Theorem is_alb_iff_application (resource : ALB.base_configuration_item) :
  (result_of (ALB.is_alb resource) = Ok true ↔
   ∃ d, ALB.configuration resource = Some (JsonText (PDict d)) ∧
        d !! "type" = Some (PStr "application")) ∧
  (∀ d, ALB.configuration resource = Some (JsonText (PDict d)) →
        ∃ b, ALB.is_alb resource = ret b) ∧
  (ALB.configuration resource = None →
   result_of (ALB.is_alb resource) = Raise (KeyError "configuration")) ∧
  (ALB.configuration resource = Some JsonInvalid →
   result_of (ALB.is_alb resource) = Raise JSONDecodeError) ∧
  (∀ v, ALB.configuration resource = Some (JsonText v) →
        (∀ d, v ≠ PDict d) →
        result_of (ALB.is_alb resource) = Raise AttributeError).
Proof.
  unfold ALB.is_alb.
  destruct (ALB.configuration resource) as [[| v] |]; simpl.
  - repeat split; try discriminate. intros (d & H & _). discriminate.
  - repeat split; try discriminate.
    + destruct v; simpl; try discriminate.
      unfold py_eq_str. intros H. exists d. split; [reflexivity |].
      destruct (d !! "type") as [[| | | s | |] |]; simpl in H; try discriminate.
      injection H as H. apply bool_decide_eq_true in H. by subst.
    + intros (d & [= ->] & Htype). simpl. by rewrite Htype.
    + intros d [= ->]. simpl. eauto.
    + intros v' [= <-] Hv. destruct v; try reflexivity. by destruct (Hv d).
  - repeat split; try discriminate. intros (d & H & _). discriminate.
Qed.

Lemma filter_returns {A} (f : A → W bool) (xs ys : list A) :
  result_of (filter_ f xs) = Ok ys →
  Forall (λ y, result_of (f y) = Ok true) ys ∧ sublist ys xs.
Proof.
  revert ys. induction xs as [| x xs IH]; simpl; intros ys.
  - intros [= <-]. split; constructor.
  - intros H. rewrite result_of_bind in H.
    destruct (result_of (f x)) as [b |] eqn:Hx; [| discriminate].
    rewrite result_of_bind in H.
    destruct (result_of (filter_ f xs)) as [rest |]; [| discriminate].
    destruct (IH rest eq_refl) as [Hall Hsub]. simpl in H. injection H as <-.
    destruct b.
    + split; [by constructor | by constructor].
    + split; [exact Hall | by constructor].
Qed.

Lemma filter_to_only_albs_loop_returns
    (script : list ALB.batch_get_resource_config_response) :
  ∀ resource_keys items out,
    result_of (ALB.filter_to_only_albs_loop script resource_keys items) = Ok out →
    ∃ new, out = items ++ new ∧
      Forall (λ item, result_of (ALB.is_alb item) = Ok true) new ∧
      sublist new (concat (map ALB.baseConfigurationItems script)).
Proof.
  induction script as [| response script IH]; intros keys items out;
    destruct keys as [| key keys]; cbn [ALB.filter_to_only_albs_loop].
  - intros [= <-]. exists []. rewrite app_nil_r. repeat split; constructor.
  - rewrite result_of_call_api. discriminate.
  - intros [= <-]. exists []. rewrite app_nil_r. repeat split; [constructor |].
    apply sublist_nil_l.
  - rewrite result_of_call_api, result_of_bind.
    destruct (result_of (filter_ ALB.is_alb _)) as [albs |] eqn:Halbs; [| discriminate].
    destruct (filter_returns _ _ _ Halbs) as [Hall Hsub].
    cbn [map concat].
    destruct (ALB.unprocessedResourceKeys response) as [[| key' keys'] |].
    + intros [= <-]. exists albs. repeat split; [exact Hall |].
      by apply sublist_inserts_r.
    + rewrite result_of_bind. simpl. intros H.
      destruct (IH _ _ _ H) as (new & -> & Hnew & Hsubnew).
      exists (albs ++ new). rewrite app_assoc. repeat split.
      * by apply Forall_app.
      * by apply sublist_app.
    + intros [= <-]. exists albs. repeat split; [exact Hall |].
      by apply sublist_inserts_r.
Qed.

(** X4.  Whatever the batches are, what [filter_to_only_albs] returns
    are items that [batch_get_resource_config] returned, in the order in
    which it returned them, and [is_alb] holds of each of them: no item
    that is not an application load balancer passes the filter. *)
Theorem filter_to_only_albs_sound
    (config_client : ALB.config_client) (all_elbv2 : list ALB.resource_identifier)
    (albs : list ALB.base_configuration_item) :
  result_of (ALB.filter_to_only_albs config_client all_elbv2) = Ok albs →
  Forall (λ item, result_of (ALB.is_alb item) = Ok true) albs ∧
  sublist albs
    (concat (map ALB.baseConfigurationItems
               (ALB.batch_get_resource_config config_client (map ALB.key_of all_elbv2)))).
Proof.
  unfold ALB.filter_to_only_albs. intros H.
  destruct (filter_to_only_albs_loop_returns _ _ _ _ H) as (new & -> & Hall & Hsub).
  by split.
Qed.

Lemma filter_to_only_albs_sound_witness :
  Forall (λ item, result_of (ALB.is_alb item) = Ok true)
    [Examples.item "application" "arn1"; Examples.item "application" "arn3"] ∧
  sublist [Examples.item "application" "arn1"; Examples.item "application" "arn3"]
    (concat (map ALB.baseConfigurationItems
               (ALB.batch_get_resource_config Examples.batched_config
                  (map ALB.key_of
                     [Examples.identifier "arn1"; Examples.identifier "arn2";
                      Examples.identifier "arn3"])))).
Proof.
  apply (filter_to_only_albs_sound Examples.batched_config
           [Examples.identifier "arn1"; Examples.identifier "arn2"; Examples.identifier "arn3"]).
  vm_compute. reflexivity.
Defined.

Lemma filter_to_only_albs_loop_no_key
    (script : list ALB.batch_get_resource_config_response)
    (items : list ALB.base_configuration_item) :
  ALB.filter_to_only_albs_loop script [] items = ret items.
Proof. by destruct script. Qed.

Lemma get_all_albs_loop_done (config_client : ALB.config_client)
    (script : list ALB.list_discovered_resources_response)
    (albs : list ALB.base_configuration_item) (next_token : option string) :
  opt_truthy next_token = false →
  ALB.get_all_albs_loop config_client script albs next_token = ret albs.
Proof. intros H. destruct script; simpl; by rewrite H. Qed.

(** X5.  When the first response of [list_discovered_resources] holds
    no resource and no token that is true, a run of the ALB rule makes
    this one call, none to [batch_get_resource_config] or to the load
    balancer client, and returns no verdict. *)
Theorem alb_no_resource_no_verdict (cf : ALB.client_factory)
    (response : ALB.list_discovered_resources_response)
    (rest : list ALB.list_discovered_resources_response) :
  ALB.list_discovered_resources (ALB.build_config cf) = response :: rest →
  ALB.resourceIdentifiers response = [] →
  opt_truthy (ALB.nextToken response) = false →
  ALB.evaluate_periodic cf =
  ([list_discovered_resources_ev ALB.DEFAULT_RESOURCE_TYPE 100 false None], Ok []).
Proof.
  intros Hlist Hempty Htoken.
  unfold ALB.evaluate_periodic, ALB.get_all_albs, ALB.list_albs, call_api.
  rewrite Hlist. unfold ALB.filter_to_only_albs. rewrite Hempty.
  cbn [map]. rewrite filter_to_only_albs_loop_no_key, bind_ret_l.
  rewrite get_all_albs_loop_done by exact Htoken. reflexivity.
Qed.

Lemma alb_no_resource_no_verdict_witness :
  ALB.evaluate_periodic
    {| ALB.build_elbv2 := Examples.elbv2;
       ALB.build_config :=
         {| ALB.list_discovered_resources :=
              [ {| ALB.resourceIdentifiers := []; ALB.nextToken := None |} ];
            ALB.batch_get_resource_config := λ _, [] |} |} =
  ([list_discovered_resources_ev ALB.DEFAULT_RESOURCE_TYPE 100 false None], Ok []).
Proof.
  apply (alb_no_resource_no_verdict _
           {| ALB.resourceIdentifiers := []; ALB.nextToken := None |} []);
    reflexivity.
Defined.

(** ** The calls of the paginated fetches *)

Lemma page_trace_more {R} (call : option string → event) (token : R → option string)
    (marker : option string) (response response' : R) (rest : list R) :
  page_trace call token marker (response :: response' :: rest) =
  call marker :: sleep_ev ALB.DEFAULT_THROTTLE_PERIOD ::
  page_trace call token (token response) (response' :: rest).
Proof. reflexivity. Qed.

Lemma count_sleeps_page_trace {R} (call : option string → event)
    (token : R → option string) (used : list R) :
  (∀ marker, is_sleep (call marker) = false) →
  ∀ marker, count_sleeps (page_trace call token marker used) = (length used - 1)%nat.
Proof.
  intros Hcall. unfold count_sleeps.
  induction used as [| response rest IH]; intros marker; [reflexivity |].
  destruct rest as [| response' rest'].
  - simpl. by rewrite Hcall.
  - rewrite page_trace_more. cbn [List.filter is_sleep]. rewrite Hcall.
    cbn [length]. rewrite IH. simpl. lia.
Qed.

Lemma get_all_listeners_loop_run (elbv2_arn : string)
    (unused rest : list ALB.describe_listeners_response) :
  ∀ resp marker items,
    paged ALB.listeners_NextMarker (resp :: rest) = true →
    ALB.get_all_listeners_loop elbv2_arn resp (rest ++ unused) items =
    (tail (page_trace (describe_listeners_ev elbv2_arn ALB.ELB_PAGE_SIZE)
             ALB.listeners_NextMarker marker (resp :: rest)),
     Ok (items ++ concat (map ALB.Listeners (resp :: rest)))).
Proof.
  induction rest as [| resp' rest IH]; intros resp marker items H;
    apply paged_cons in H as [[? Hlast] | (next & Hnext & Hrest)]; try discriminate.
  - destruct unused; simpl; rewrite Hlast; simpl; by rewrite app_nil_r.
  - rewrite page_trace_more. cbn [tail app ALB.get_all_listeners_loop].
    rewrite Hnext. unfold call_api.
    rewrite (IH resp' (Some next)) by exact Hrest.
    unfold sleep, log, bind. cbn [map concat]. rewrite <- app_assoc.
    destruct rest; reflexivity.
Qed.

Lemma get_all_listener_rules_loop_run (listener_arn : string)
    (unused rest : list ALB.describe_rules_response) :
  ∀ resp marker items,
    paged ALB.rules_NextMarker (resp :: rest) = true →
    ALB.get_all_listener_rules_loop listener_arn resp (rest ++ unused) items =
    (tail (page_trace (describe_rules_ev listener_arn ALB.ELB_PAGE_SIZE)
             ALB.rules_NextMarker marker (resp :: rest)),
     Ok (items ++ concat (map ALB.Rules (resp :: rest)))).
Proof.
  induction rest as [| resp' rest IH]; intros resp marker items H;
    apply paged_cons in H as [[? Hlast] | (next & Hnext & Hrest)]; try discriminate.
  - destruct unused; simpl; rewrite Hlast; simpl; by rewrite app_nil_r.
  - rewrite page_trace_more. cbn [tail app ALB.get_all_listener_rules_loop].
    rewrite Hnext. unfold call_api.
    rewrite (IH resp' (Some next)) by exact Hrest.
    unfold sleep, log, bind. cbn [map concat]. rewrite <- app_assoc.
    destruct rest; reflexivity.
Qed.

Lemma get_all_listeners_run (client : ALB.elbv2_client) (elbv2_arn : string)
    (used unused : list ALB.describe_listeners_response) :
  ALB.describe_listeners client elbv2_arn = used ++ unused →
  paged ALB.listeners_NextMarker used = true →
  ALB.get_all_listeners client elbv2_arn =
  (page_trace (describe_listeners_ev elbv2_arn ALB.ELB_PAGE_SIZE)
     ALB.listeners_NextMarker None used,
   Ok (concat (map ALB.Listeners used))).
Proof.
  intros Hscript Hpaged. unfold ALB.get_all_listeners, call_api. rewrite Hscript.
  destruct used as [| resp rest]; [discriminate |]. cbn [app].
  rewrite (get_all_listeners_loop_run _ _ _ _ None) by exact Hpaged.
  unfold log, bind. by destruct rest.
Qed.

Lemma get_all_listener_rules_run (client : ALB.elbv2_client) (listener_arn : string)
    (used unused : list ALB.describe_rules_response) :
  ALB.describe_rules client listener_arn = used ++ unused →
  paged ALB.rules_NextMarker used = true →
  ALB.get_all_listener_rules client listener_arn =
  (page_trace (describe_rules_ev listener_arn ALB.ELB_PAGE_SIZE)
     ALB.rules_NextMarker None used,
   Ok (concat (map ALB.Rules used))).
Proof.
  intros Hscript Hpaged. unfold ALB.get_all_listener_rules, call_api. rewrite Hscript.
  destruct used as [| resp rest]; [discriminate |]. cbn [app].
  rewrite (get_all_listener_rules_loop_run _ _ _ _ None) by exact Hpaged.
  unfold log, bind. by destruct rest.
Qed.

(** X6.  When the responses up to the first one without 'NextMarker'
    are [used], [get_all_listeners] makes one call per response of [used]
    and no further call: the first without a marker, each later one with
    the 'NextMarker' of the response before it, after one sleep of the
    throttle period; it sleeps [N - 1] times for [N] responses and
    returns their listeners in order.  [get_all_listener_rules] does the
    same with [describe_rules]. *)
Theorem elb_fetch_calls_and_sleeps :
  (∀ client elbv2_arn used unused,
     ALB.describe_listeners client elbv2_arn = used ++ unused →
     paged ALB.listeners_NextMarker used = true →
     let run := ALB.get_all_listeners client elbv2_arn in
     trace_of run =
       page_trace (describe_listeners_ev elbv2_arn 400) ALB.listeners_NextMarker None used ∧
     result_of run = Ok (concat (map ALB.Listeners used)) ∧
     count_sleeps (trace_of run) = (length used - 1)%nat) ∧
  (∀ client listener_arn used unused,
     ALB.describe_rules client listener_arn = used ++ unused →
     paged ALB.rules_NextMarker used = true →
     let run := ALB.get_all_listener_rules client listener_arn in
     trace_of run =
       page_trace (describe_rules_ev listener_arn 400) ALB.rules_NextMarker None used ∧
     result_of run = Ok (concat (map ALB.Rules used)) ∧
     count_sleeps (trace_of run) = (length used - 1)%nat).
Proof.
  split.
  - intros client arn used unused Hscript Hpaged run. subst run.
    rewrite (get_all_listeners_run _ _ _ _ Hscript Hpaged). cbn [trace_of result_of fst snd].
    repeat split. by apply count_sleeps_page_trace.
  - intros client arn used unused Hscript Hpaged run. subst run.
    rewrite (get_all_listener_rules_run _ _ _ _ Hscript Hpaged).
    cbn [trace_of result_of fst snd].
    repeat split. by apply count_sleeps_page_trace.
Qed.

Lemma elb_fetch_calls_and_sleeps_witness :
  trace_of (ALB.get_all_listeners Examples.paged_elbv2 "arn1") =
  [ describe_listeners_ev "arn1" 400 None;
    sleep_ev ALB.DEFAULT_THROTTLE_PERIOD;
    describe_listeners_ev "arn1" 400 (Some "def") ] ∧
  trace_of (ALB.get_all_listener_rules Examples.paged_elbv2 "listenerArn1") =
  [ describe_rules_ev "listenerArn1" 400 None;
    sleep_ev ALB.DEFAULT_THROTTLE_PERIOD;
    describe_rules_ev "listenerArn1" 400 (Some "ghi") ].
Proof.
  destruct elb_fetch_calls_and_sleeps as [Hlisteners Hrules].
  split.
  - apply (Hlisteners Examples.paged_elbv2 "arn1"
             (ALB.describe_listeners Examples.paged_elbv2 "arn1") []); reflexivity.
  - apply (Hrules Examples.paged_elbv2 "listenerArn1"
             (ALB.describe_rules Examples.paged_elbv2 "listenerArn1") []); reflexivity.
Defined.

(** ** Failing calls *)

(** A script in which some response carries no token starts with a
    pagination. *)
Lemma paged_prefix {R} (token : R → option string) (script : list R) :
  forallb (has_token token) script = false →
  ∃ used unused, script = used ++ unused ∧ paged token used = true.
Proof.
  induction script as [| r script IH]; [discriminate |].
  cbn [forallb]. unfold has_token at 1.
  destruct (token r) as [next |] eqn:Hr; simpl.
  - intros H. destruct (IH H) as (used & unused & -> & Hused).
    exists (r :: used), unused. split; [reflexivity |].
    destruct used as [| r' used]; [discriminate |].
    cbn [paged]. by rewrite Hr.
  - intros _. exists [r], script. split; [reflexivity |]. simpl. by rewrite Hr.
Qed.

Lemma get_all_listeners_loop_fails (elbv2_arn : string)
    (script : list ALB.describe_listeners_response) :
  ∀ resp items,
    forallb (has_token ALB.listeners_NextMarker) (resp :: script) = true →
    result_of (ALB.get_all_listeners_loop elbv2_arn resp script items) = Raise ApiError.
Proof.
  induction script as [| resp' script IH]; intros resp items H;
    cbn [forallb] in H; apply andb_prop in H as [Hresp H];
    unfold has_token in Hresp;
    cbn [ALB.get_all_listeners_loop];
    destruct (ALB.listeners_NextMarker resp); try discriminate;
    rewrite result_of_bind; cbn [sleep log result_of snd];
    rewrite result_of_call_api; [reflexivity |].
  by apply IH.
Qed.

Lemma get_all_listener_rules_loop_fails (listener_arn : string)
    (script : list ALB.describe_rules_response) :
  ∀ resp items,
    forallb (has_token ALB.rules_NextMarker) (resp :: script) = true →
    result_of (ALB.get_all_listener_rules_loop listener_arn resp script items) =
    Raise ApiError.
Proof.
  induction script as [| resp' script IH]; intros resp items H;
    cbn [forallb] in H; apply andb_prop in H as [Hresp H];
    unfold has_token in Hresp;
    cbn [ALB.get_all_listener_rules_loop];
    destruct (ALB.rules_NextMarker resp); try discriminate;
    rewrite result_of_bind; cbn [sleep log result_of snd];
    rewrite result_of_call_api; [reflexivity |].
  by apply IH.
Qed.

(** X7.  [get_all_listeners] raises exactly when the calls fail before
    a response without 'NextMarker' is received, that is when every
    response of the script carries one; it then raises the error of the
    call and returns no listener of the responses received so far.  In
    every other case it returns.  The same holds of
    [get_all_listener_rules]. *)
Theorem elb_fetch_fails_only_with_the_call :
  (∀ client elbv2_arn,
     let script := ALB.describe_listeners client elbv2_arn in
     (forallb (has_token ALB.listeners_NextMarker) script = true →
      result_of (ALB.get_all_listeners client elbv2_arn) = Raise ApiError) ∧
     (forallb (has_token ALB.listeners_NextMarker) script = false →
      ∃ items, result_of (ALB.get_all_listeners client elbv2_arn) = Ok items)) ∧
  (∀ client listener_arn,
     let script := ALB.describe_rules client listener_arn in
     (forallb (has_token ALB.rules_NextMarker) script = true →
      result_of (ALB.get_all_listener_rules client listener_arn) = Raise ApiError) ∧
     (forallb (has_token ALB.rules_NextMarker) script = false →
      ∃ items, result_of (ALB.get_all_listener_rules client listener_arn) = Ok items)).
Proof.
  split.
  - intros client arn script. split.
    + intros H. unfold ALB.get_all_listeners. rewrite result_of_call_api.
      fold script. destruct script as [| resp rest]; [reflexivity |].
      by apply get_all_listeners_loop_fails.
    + intros H. destruct (paged_prefix _ _ H) as (used & unused & Hscript & Hpaged).
      rewrite (get_all_listeners_run _ _ _ _ Hscript Hpaged). eauto.
  - intros client arn script. split.
    + intros H. unfold ALB.get_all_listener_rules. rewrite result_of_call_api.
      fold script. destruct script as [| resp rest]; [reflexivity |].
      by apply get_all_listener_rules_loop_fails.
    + intros H. destruct (paged_prefix _ _ H) as (used & unused & Hscript & Hpaged).
      rewrite (get_all_listener_rules_run _ _ _ _ Hscript Hpaged). eauto.
Qed.

Lemma elb_fetch_fails_only_with_the_call_witness :
  result_of (ALB.get_all_listeners
               {| ALB.describe_listeners := λ _,
                    [ {| ALB.Listeners := [Examples.http_listener];
                         ALB.listeners_NextMarker := Some "def" |} ];
                  ALB.describe_rules := λ _, [] |} "arn1") = Raise ApiError ∧
  ∃ items, result_of (ALB.get_all_listener_rules Examples.paged_elbv2 "listenerArn1") =
           Ok items.
Proof.
  destruct elb_fetch_fails_only_with_the_call as [Hlisteners Hrules].
  split.
  - apply Hlisteners. reflexivity.
  - apply Hrules. reflexivity.
Defined.

(** ** The listing of the load balancers *)

Lemma albs_trace_more (config_client : ALB.config_client) (next_token : option string)
    (response response' : ALB.list_discovered_resources_response)
    (rest : list ALB.list_discovered_resources_response) :
  albs_trace config_client next_token (response :: response' :: rest) =
  list_discovered_resources_ev ALB.DEFAULT_RESOURCE_TYPE ALB.CONFIG_PAGE_SIZE false
    (if opt_truthy next_token then next_token else None) ::
  trace_of (ALB.filter_to_only_albs config_client (ALB.resourceIdentifiers response)) ++
  sleep_ev ALB.DEFAULT_THROTTLE_PERIOD ::
  albs_trace config_client (ALB.nextToken response) (response' :: rest).
Proof. reflexivity. Qed.

Lemma listed_more (response response' : ALB.list_discovered_resources_response)
    (rest : list ALB.list_discovered_resources_response) :
  listed (response :: response' :: rest) =
  opt_truthy (ALB.nextToken response) && listed (response' :: rest).
Proof. reflexivity. Qed.

Lemma W_returns {A} (m : W A) (a : A) : result_of m = Ok a → m = (trace_of m, Ok a).
Proof. destruct m as [t r]. simpl. by intros ->. Qed.

Lemma bind_Ok {A B} (t : list event) (a : A) (f : A → W B) :
  bind (t, Ok a) f = (t ++ trace_of (f a), result_of (f a)).
Proof. simpl. by destruct (f a). Qed.

Lemma get_all_albs_loop_run (config_client : ALB.config_client)
    (unused used : list ALB.list_discovered_resources_response) :
  ∀ albs next_token pages,
    opt_truthy next_token = true →
    listed used = true →
    Forall2 (λ response page,
        result_of (ALB.filter_to_only_albs config_client
                     (ALB.resourceIdentifiers response)) = Ok page) used pages →
    ALB.get_all_albs_loop config_client (used ++ unused) albs next_token =
    (sleep_ev ALB.DEFAULT_THROTTLE_PERIOD :: albs_trace config_client next_token used,
     Ok (albs ++ concat pages)).
Proof.
  induction used as [| response rest IH]; intros albs next_token pages Htoken Hlisted Hpages;
    [discriminate |].
  inversion Hpages as [| ? page ? pages' Hpage Hpages']; subst.
  cbn [app ALB.get_all_albs_loop]. rewrite Htoken.
  unfold ALB.list_albs, call_api. rewrite Htoken.
  rewrite (W_returns _ _ Hpage). unfold sleep, log. rewrite !bind_Ok.
  cbn [trace_of result_of fst snd].
  destruct rest as [| response' rest'].
  - inversion Hpages'; subst. simpl in Hlisted. apply negb_true_iff in Hlisted.
    cbn [app]. rewrite get_all_albs_loop_done by exact Hlisted.
    cbn [albs_trace concat ret trace_of result_of fst snd]. rewrite Htoken.
    by rewrite !app_nil_r.
  - rewrite listed_more in Hlisted. apply andb_prop in Hlisted as [Hnext Hlisted].
    rewrite (IH _ _ pages' Hnext Hlisted Hpages').
    rewrite albs_trace_more, Htoken. cbn [trace_of result_of fst snd concat].
    by rewrite <- app_assoc.
Qed.

(** X8.  [get_all_albs] lists up to the first response of
    [list_discovered_resources] that carries no 'nextToken' or an empty
    one and asks for nothing beyond it.  It makes one call per response
    used, the first without token and each later one with the token of
    the response before it, filters the candidates of each response
    before the next call, and sleeps before each later call.  When the
    filter returns on each response, it returns the resource ids of the
    items that passed, in the order of the responses. *)
Theorem get_all_albs_lists_until_no_token
    (config_client : ALB.config_client)
    (used unused : list ALB.list_discovered_resources_response)
    (pages : list (list ALB.base_configuration_item)) :
  ALB.list_discovered_resources config_client = used ++ unused →
  listed used = true →
  Forall2 (λ response page,
      result_of (ALB.filter_to_only_albs config_client
                   (ALB.resourceIdentifiers response)) = Ok page) used pages →
  ALB.get_all_albs config_client =
  (albs_trace config_client None used, Ok (map ALB.item_resourceId (concat pages))).
Proof.
  intros Hscript Hlisted Hpages. unfold ALB.get_all_albs, ALB.list_albs, call_api.
  rewrite Hscript. destruct used as [| response rest]; [discriminate |].
  inversion Hpages as [| ? page ? pages' Hpage Hpages']; subst.
  cbn [app opt_truthy]. rewrite (W_returns _ _ Hpage). unfold log.
  rewrite !bind_assoc, !bind_Ok. cbn [trace_of result_of fst snd].
  destruct rest as [| response' rest'].
  - inversion Hpages'; subst. simpl in Hlisted. apply negb_true_iff in Hlisted.
    cbn [app]. rewrite get_all_albs_loop_done by exact Hlisted.
    rewrite bind_ret_l. cbn [albs_trace concat ret trace_of result_of fst snd opt_truthy].
    by rewrite !app_nil_r.
  - rewrite listed_more in Hlisted. apply andb_prop in Hlisted as [Hnext Hlisted].
    rewrite (get_all_albs_loop_run _ _ _ _ _ pages' Hnext Hlisted Hpages').
    rewrite bind_Ok. rewrite albs_trace_more.
    cbn [ret trace_of result_of fst snd concat opt_truthy app].
    by rewrite !app_nil_r.
Qed.

Lemma get_all_albs_lists_until_no_token_witness :
  ALB.get_all_albs MoreExamples.listed_config =
  ([ list_discovered_resources_ev ALB.DEFAULT_RESOURCE_TYPE 100 false None;
     batch_get_resource_config_ev [Examples.key "arn1"; Examples.key "arn2"];
     sleep_ev ALB.DEFAULT_THROTTLE_PERIOD;
     list_discovered_resources_ev ALB.DEFAULT_RESOURCE_TYPE 100 false (Some "abc");
     batch_get_resource_config_ev [Examples.key "arn3"] ],
   Ok ["arn1"; "arn2"; "arn3"]).
Proof.
  apply (get_all_albs_lists_until_no_token MoreExamples.listed_config
           (take 2 (ALB.list_discovered_resources MoreExamples.listed_config))
           (drop 2 (ALB.list_discovered_resources MoreExamples.listed_config))
           [ [Examples.item "application" "arn1"; Examples.item "application" "arn2"];
             [Examples.item "application" "arn3"] ]).
  - reflexivity.
  - reflexivity.
  - repeat constructor.
Defined.

(** ** Runs that raise *)

Lemma for_raises {A S} (body : A → S → W S) (before after : list A) (x : A)
    (acc acc' : S) (e : exn) :
  result_of (for_ before body acc) = Ok acc' →
  result_of (body x acc') = Raise e →
  result_of (for_ (before ++ x :: after) body acc) = Raise e.
Proof.
  revert acc. induction before as [| y before IH]; simpl; intros acc Hbefore Hx.
  - injection Hbefore as ->. by rewrite result_of_bind, Hx.
  - rewrite result_of_bind in *.
    destruct (result_of (body y acc)); [by apply IH | discriminate].
Qed.

(** X9.  A run of the ALB rule returns no verdict at all when the
    evaluation of one load balancer raises: when the reduction returns for
    the load balancers before it and raises for it, the run raises the
    same exception, whatever the load balancers after it are. *)
Theorem alb_run_raises_with_one_resource
    (cf : ALB.client_factory) (before after : list string) (elb : string)
    (bs : list bool) (e : exn) :
  result_of (ALB.get_all_albs (ALB.build_config cf)) = Ok (before ++ elb :: after) →
  Forall2 (λ elb' b, result_of (alb_compliance (ALB.build_elbv2 cf) elb') = Ok b) before bs →
  result_of (alb_compliance (ALB.build_elbv2 cf) elb) = Raise e →
  result_of (ALB.evaluate_periodic cf) = Raise e.
Proof.
  intros Halbs Hbefore Helb. unfold ALB.evaluate_periodic.
  rewrite result_of_bind, Halbs.
  apply for_raises with (acc' := [] ++ zip_with alb_verdict before bs).
  - apply (for_appending _ _ _ _ _ (alb_body_appending _)).
    clear Halbs. induction Hbefore as [| elb' b before bs Hb _ IH]; [constructor |].
    simpl. constructor; [| exact IH]. by rewrite result_of_bind, Hb.
  - rewrite alb_body_appending, !result_of_bind, Helb. reflexivity.
Qed.

Lemma alb_run_raises_with_one_resource_witness :
  result_of (ALB.evaluate_periodic
               {| ALB.build_elbv2 :=
                    {| ALB.describe_listeners := λ elb,
                         if bool_decide (elb = "arn3") then []
                         else [ {| ALB.Listeners := [Examples.https_listener];
                                   ALB.listeners_NextMarker := None |} ];
                       ALB.describe_rules := λ _, [] |};
                  ALB.build_config := Examples.batched_config |}) = Raise ApiError.
Proof.
  apply (alb_run_raises_with_one_resource _ ["arn1"] [] "arn3" [true] ApiError).
  - vm_compute. reflexivity.
  - repeat constructor.
  - vm_compute. reflexivity.
Defined.

(** ** The shape of the verdicts *)

Lemma alb_verdict_shape (elb : string) (b : bool) :
  verdict_shape ALB.DEFAULT_RESOURCE_TYPE ALB.NON_COMPLIANT_ANNOTATION (alb_verdict elb b).
Proof. destruct b; split; auto. Qed.

Lemma role_verdict_shape (username : pyval) (b : bool) :
  verdict_shape IAM.RESOURCE_TYPE IAM.NON_COMPLIANT_ANNOTATION (role_verdict username b).
Proof. destruct b; split; auto. Qed.

(** X10.  Every verdict that a run of the ALB rule returns has the
    resource type of load balancers and is either COMPLIANT without
    annotation or NON_COMPLIANT with the annotation of the rule, and every
    verdict of the IAM rule has the resource type of roles and is either
    COMPLIANT without annotation or NON_COMPLIANT with the annotation of
    that rule: no run returns NOT_APPLICABLE or ERROR for a resource. *)
Theorem verdicts_are_compliant_or_non_compliant :
  (∀ cf evals,
     result_of (ALB.evaluate_periodic cf) = Ok evals →
     Forall (verdict_shape ALB.DEFAULT_RESOURCE_TYPE ALB.NON_COMPLIANT_ANNOTATION) evals) ∧
  (∀ CURRENT_TIME cf valid_rule_parameters evals,
     result_of (IAM.evaluate_periodic CURRENT_TIME cf valid_rule_parameters) = Ok evals →
     Forall (verdict_shape IAM.RESOURCE_TYPE IAM.NON_COMPLIANT_ANNOTATION) evals).
Proof.
  split.
  - intros cf evals H.
    destruct (alb_evaluate_periodic_inv _ _ H) as (albs & bs & _ & Hbs & ->).
    clear H. induction Hbs as [| elb b albs bs _ _ IH]; [constructor |].
    simpl. constructor; [apply alb_verdict_shape | exact IH].
  - intros now cf params evals H.
    destruct (describe_roles_returns _ _ _ _ H) as (names & Hnames).
    unfold IAM.evaluate_periodic in H. rewrite (describe_roles_names _ _ Hnames) in H.
    destruct (for_appending_inv _ _ _ _ _ (iam_body_appending _ _ _) H) as (vs & -> & Hvs).
    simpl. clear H Hnames. induction Hvs as [| name v names vs Hv _ IH]; [constructor |].
    constructor; [| exact IH].
    rewrite result_of_bind in Hv. destruct (result_of _) as [b |]; [| discriminate].
    injection Hv as <-. apply role_verdict_shape.
Qed.

(** ** The calls of the reduction over the listeners *)

Lemma all_https_listeners (alb_client : ALB.elbv2_client) (listeners : list ALB.listener) :
  forallb ALB.is_https_listener listeners = true →
  all_ (λ listener, ALB.is_listener_compliant listener alb_client) listeners = ret true.
Proof.
  induction listeners as [| listener listeners IH]; simpl; [reflexivity |].
  intros H. apply andb_prop in H as [Hl H]. unfold ALB.is_listener_compliant at 1.
  rewrite Hl, bind_ret_l. by apply IH.
Qed.

(** X11.  The rules of a load balancer whose listeners all carry
    'SslPolicy' are not fetched: the evaluation of the load balancer makes
    the calls of [get_all_listeners] and no other, and appends the
    verdict COMPLIANT. *)
Theorem https_only_balancer_needs_no_rules
    (alb_client : ALB.elbv2_client) (elb : string) (evaluations : list Evaluation)
    (calls : list event) (listeners : list ALB.listener) :
  ALB.get_all_listeners alb_client elb = (calls, Ok listeners) →
  forallb ALB.is_https_listener listeners = true →
  ALB.evaluate_periodic_body alb_client elb evaluations =
  (calls, Ok (evaluations ++ [mkEvaluation COMPLIANT elb ALB.DEFAULT_RESOURCE_TYPE None])).
Proof.
  intros Hfetch Hhttps. unfold ALB.evaluate_periodic_body.
  rewrite Hfetch, bind_Ok, (all_https_listeners _ _ Hhttps), bind_ret_l.
  simpl. by rewrite app_nil_r.
Qed.

Lemma https_only_balancer_needs_no_rules_witness :
  ALB.evaluate_periodic_body Examples.elbv2 "arn1" [] =
  ([describe_listeners_ev "arn1" 400 None],
   Ok [mkEvaluation COMPLIANT "arn1" ALB.DEFAULT_RESOURCE_TYPE None]).
Proof.
  apply (https_only_balancer_needs_no_rules Examples.elbv2 "arn1" []
           [describe_listeners_ev "arn1" 400 None] [Examples.https_listener]);
    reflexivity.
Defined.

Lemma all_stops_at_first_false {A} (f : A → W bool) (before after : list A) (x : A) :
  (∀ y, y ∈ before → result_of (f y) = Ok true) →
  result_of (f x) = Ok false →
  all_ f (before ++ x :: after) =
  (concat (map (λ y, trace_of (f y)) (before ++ [x])), Ok false).
Proof.
  intros Hbefore Hx. induction before as [| y before IH]; simpl.
  - rewrite (W_returns _ _ Hx), bind_Ok. simpl. by rewrite !app_nil_r.
  - rewrite (W_returns _ _ (Hbefore y (list_elem_of_here _ _))), bind_Ok.
    rewrite IH by (intros z Hz; apply Hbefore; by apply list_elem_of_further).
    reflexivity.
Qed.

(** X12.  The reduction over the listeners of a load balancer stops at
    the first listener that is not compliant: after the calls of
    [get_all_listeners], the evaluation makes the calls of
    [is_listener_compliant] for the listeners up to and including that
    one, in their order, none for the listeners after it, and appends the
    verdict NON_COMPLIANT with the annotation. *)
Theorem reduction_stops_at_first_non_compliant_listener
    (alb_client : ALB.elbv2_client) (elb : string) (evaluations : list Evaluation)
    (calls : list event) (before after : list ALB.listener) (listener : ALB.listener) :
  ALB.get_all_listeners alb_client elb = (calls, Ok (before ++ listener :: after)) →
  (∀ listener', listener' ∈ before →
     result_of (ALB.is_listener_compliant listener' alb_client) = Ok true) →
  result_of (ALB.is_listener_compliant listener alb_client) = Ok false →
  ALB.evaluate_periodic_body alb_client elb evaluations =
  (calls ++
   concat (map (λ listener', trace_of (ALB.is_listener_compliant listener' alb_client))
             (before ++ [listener])),
   Ok (evaluations ++
       [mkEvaluation NON_COMPLIANT elb ALB.DEFAULT_RESOURCE_TYPE
          (Some "HTTP listener rule must have HTTP to HTTPS redirection action configured")])).
Proof.
  intros Hfetch Hbefore Hlistener. unfold ALB.evaluate_periodic_body.
  rewrite Hfetch, bind_Ok.
  rewrite (all_stops_at_first_false
             (λ l, ALB.is_listener_compliant l alb_client) _ _ _ Hbefore Hlistener).
  rewrite bind_Ok. simpl. by rewrite app_nil_r.
Qed.

Lemma reduction_stops_at_first_non_compliant_listener_witness :
  ALB.evaluate_periodic_body MoreExamples.three_listeners "arn1" [] =
  ([ describe_listeners_ev "arn1" 400 None; describe_rules_ev "listener-http" 400 None ],
   Ok [ mkEvaluation NON_COMPLIANT "arn1" ALB.DEFAULT_RESOURCE_TYPE
          (Some "HTTP listener rule must have HTTP to HTTPS redirection action configured") ]).
Proof.
  apply (reduction_stops_at_first_non_compliant_listener MoreExamples.three_listeners
           "arn1" [] [describe_listeners_ev "arn1" 400 None]
           [Examples.https_listener] [MoreExamples.last_listener] Examples.http_listener).
  - reflexivity.
  - intros l Hl. apply list_elem_of_singleton in Hl as ->. reflexivity.
  - reflexivity.
Defined.

(** ** What the ALB rule checks *)

Lemma all_true_iff_in {A} (f : A → W bool) (p : A → bool) (xs : list A) :
  (∀ x, x ∈ xs → result_of (f x) = Ok true ↔ p x = true) →
  result_of (all_ f xs) = Ok true ↔ forallb p xs = true.
Proof.
  induction xs as [| x xs IH]; intros Hp; simpl; [done |].
  rewrite result_of_bind, andb_true_iff.
  rewrite <- IH by (intros y Hy; apply Hp; by apply list_elem_of_further).
  rewrite <- (Hp x) by apply list_elem_of_here.
  destruct (result_of (f x)) as [[|] |]; simpl; split;
    try discriminate; try tauto; intros [? _]; discriminate.
Qed.

Lemma is_listener_compliant_true (alb_client : ALB.elbv2_client) (listener : ALB.listener) :
  (ALB.is_https_listener listener = false →
   paged ALB.rules_NextMarker
     (ALB.describe_rules alb_client (ALB.ListenerArn listener)) = true) →
  result_of (ALB.is_listener_compliant listener alb_client) = Ok true ↔
  listener_redirects alb_client listener = true.
Proof.
  unfold ALB.is_listener_compliant, listener_redirects.
  destruct (ALB.is_https_listener listener); [done |]. intros Hpaged.
  rewrite result_of_bind.
  rewrite (get_all_listener_rules_run _ _ _ [] (eq_sym (app_nil_r _)) (Hpaged eq_refl)).
  change (result_of (?t, Ok ?a)) with (@Ok (list ALB.listener_rule) a).
  cbn [orb]. unfold rules_redirect.
  apply all_true_iff. intros rule. unfold ALB.is_listener_rule_compliant.
  apply all_true_iff, is_https_redirect_action_true.
Qed.

(** X13.  What the ALB rule checks.  When [describe_listeners]
    paginates the listeners of a load balancer and [describe_rules] those
    of each of its listeners without 'SslPolicy', the load balancer gets
    the verdict COMPLIANT exactly when each of its listeners carries
    'SslPolicy' or has only rules of which every action is a redirect to
    HTTPS. *)
Theorem alb_compliant_iff_every_listener_redirects
    (alb_client : ALB.elbv2_client) (elb : string) (evaluations : list Evaluation) :
  let listeners := concat (map ALB.Listeners (ALB.describe_listeners alb_client elb)) in
  paged ALB.listeners_NextMarker (ALB.describe_listeners alb_client elb) = true →
  (∀ listener, listener ∈ listeners → ALB.is_https_listener listener = false →
     paged ALB.rules_NextMarker
       (ALB.describe_rules alb_client (ALB.ListenerArn listener)) = true) →
  result_of (ALB.evaluate_periodic_body alb_client elb evaluations) =
    Ok (evaluations ++ [mkEvaluation COMPLIANT elb ALB.DEFAULT_RESOURCE_TYPE None]) ↔
  forallb (listener_redirects alb_client) listeners = true.
Proof.
  intros listeners Hlisteners Hrules.
  rewrite <- (all_true_iff_in (λ l, ALB.is_listener_compliant l alb_client)).
  2: { intros l Hl. apply is_listener_compliant_true. by apply Hrules. }
  rewrite alb_body_appending, !result_of_bind. unfold alb_compliance.
  rewrite result_of_bind.
  rewrite (get_all_listeners_run _ _ _ [] (eq_sym (app_nil_r _)) Hlisteners).
  change (result_of (?t, Ok ?a)) with (@Ok (list ALB.listener) a). fold listeners.
  destruct (result_of (all_ (λ l, ALB.is_listener_compliant l alb_client) listeners))
    as [[|] |]; simpl; split; try done.
  intros [= H]. apply app_inv_head in H. discriminate.
Qed.

Lemma alb_compliant_iff_every_listener_redirects_witness :
  result_of (ALB.evaluate_periodic_body Examples.paged_elbv2 "arn1" []) =
    Ok ([] ++ [mkEvaluation COMPLIANT "arn1" ALB.DEFAULT_RESOURCE_TYPE None]) ↔
  forallb (listener_redirects Examples.paged_elbv2)
    (concat (map ALB.Listeners (ALB.describe_listeners Examples.paged_elbv2 "arn1"))) = true.
Proof.
  apply (alb_compliant_iff_every_listener_redirects Examples.paged_elbv2 "arn1" []).
  - reflexivity.
  - intros listener _ _. reflexivity.
Defined.

(** ** The evaluation of a role *)

Lemma role_compliance_used (CURRENT_TIME : IAM.datetime) (iam_client : IAM.iam_client)
    (valid_rule_parameters : gmap string pyval) (name : string)
    (user_data : IAM.get_role_response) (last_used : IAM.role_last_used)
    (last_used_date : IAM.datetime) (days : Z) :
  IAM.get_role iam_client name = Some user_data →
  IAM.RoleLastUsed (IAM.Role user_data) = Some last_used →
  IAM.LastUsedDate last_used = Some last_used_date →
  valid_rule_parameters !! "DaysBeforeUnused" = Some (PInt days) →
  role_compliance CURRENT_TIME iam_client valid_rule_parameters (PStr name) =
  ([get_role_ev (PStr name)], Ok (IAM.timedelta_days CURRENT_TIME last_used_date <=? days)).
Proof.
  intros Hrole Hlast Hdate Hdays.
  unfold role_compliance, IAM.call_get_role. rewrite Hrole.
  cbn -[lookup IAM.timedelta_days Z.leb]. rewrite Hlast.
  cbn -[lookup IAM.timedelta_days Z.leb].
  unfold IAM.role_last_used_truthy. rewrite Hdate.
  cbn -[lookup IAM.timedelta_days Z.leb]. rewrite Hdays. reflexivity.
Qed.

(** X14.  For a role whose 'RoleLastUsed' holds a 'LastUsedDate', the
    evaluation calls [get_role] once and compares the days between that
    date and the current time with DaysBeforeUnused; the creation date of
    the role plays no part, and may be absent from the response. *)
Theorem used_role_is_judged_by_last_use
    (CURRENT_TIME : IAM.datetime) (iam_client : IAM.iam_client)
    (valid_rule_parameters : gmap string pyval) (name : string)
    (user_data : IAM.get_role_response) (last_used : IAM.role_last_used)
    (last_used_date : IAM.datetime) (days : Z) (evaluations : list Evaluation) :
  IAM.get_role iam_client name = Some user_data →
  IAM.RoleLastUsed (IAM.Role user_data) = Some last_used →
  IAM.LastUsedDate last_used = Some last_used_date →
  valid_rule_parameters !! "DaysBeforeUnused" = Some (PInt days) →
  IAM.evaluate_periodic_body CURRENT_TIME iam_client valid_rule_parameters
    (PStr name) evaluations =
  ([get_role_ev (PStr name)],
   Ok (evaluations ++
       [ if IAM.timedelta_days CURRENT_TIME last_used_date <=? days
         then mkEvaluation COMPLIANT name IAM.RESOURCE_TYPE None
         else mkEvaluation NON_COMPLIANT name IAM.RESOURCE_TYPE
                (Some IAM.NON_COMPLIANT_ANNOTATION) ])).
Proof.
  intros Hrole Hlast Hdate Hdays.
  rewrite iam_body_appending,
    (role_compliance_used _ _ _ _ _ _ _ _ Hrole Hlast Hdate Hdays).
  destruct (_ <=? _); reflexivity.
Qed.

Lemma used_role_is_judged_by_last_use_witness :
  IAM.evaluate_periodic_body Examples.now MoreExamples.test_iam
    Examples.ninety_days (PStr "config-rule") [] =
  ([get_role_ev (PStr "config-rule")],
   Ok [mkEvaluation COMPLIANT "config-rule" IAM.RESOURCE_TYPE None]).
Proof.
  apply (used_role_is_judged_by_last_use Examples.now MoreExamples.test_iam
           Examples.ninety_days "config-rule" MoreExamples.test_role
           MoreExamples.test_last_used (Examples.day 99) 90 []); reflexivity.
Defined.

(** X16.  The comparison of the days counts whole days, rounded
    down: a role is within DaysBeforeUnused exactly when less than
    [days + 1] times 24 hours lie between the date and the current time.
    In particular a date after the current time is within any
    DaysBeforeUnused that is not negative, and with DaysBeforeUnused 0 the
    role must have been used in the last 24 hours. *)
Theorem days_are_whole_days (CURRENT_TIME date : IAM.datetime) (days : Z) :
  ((IAM.timedelta_days CURRENT_TIME date <=? days) = true ↔
   CURRENT_TIME - date < (days + 1) * IAM.MICROSECONDS_PER_DAY) ∧
  (0 ≤ days → CURRENT_TIME ≤ date →
   (IAM.timedelta_days CURRENT_TIME date <=? days) = true) ∧
  ((IAM.timedelta_days CURRENT_TIME date <=? 0) = true ↔
   CURRENT_TIME - date < IAM.MICROSECONDS_PER_DAY).
Proof.
  assert (∀ d, (IAM.timedelta_days CURRENT_TIME date <=? d) = true ↔
               CURRENT_TIME - date < (d + 1) * IAM.MICROSECONDS_PER_DAY) as H.
  { intros d. unfold IAM.timedelta_days, IAM.MICROSECONDS_PER_DAY.
    rewrite Z.leb_le.
    pose proof (Z.div_mod (CURRENT_TIME - date) 86400000000 ltac:(lia)).
    pose proof (Z.mod_pos_bound (CURRENT_TIME - date) 86400000000 ltac:(lia)).
    lia. }
  split; [apply H |]. split.
  - intros Hdays Hdate. apply H. unfold IAM.MICROSECONDS_PER_DAY. lia.
  - rewrite H. unfold IAM.MICROSECONDS_PER_DAY. lia.
Qed.

Lemma days_are_whole_days_witness :
  (IAM.timedelta_days (Examples.day 10) (Examples.day 11) <=? 0) = true.
Proof.
  destruct (days_are_whole_days (Examples.day 10) (Examples.day 11) 0) as (_ & H & _).
  apply H; [lia |]. unfold Examples.day, IAM.MICROSECONDS_PER_DAY. lia.
Defined.

Lemma evaluate_parameters_returns_days (rule_parameters valid : gmap string pyval) :
  result_of (IAM.evaluate_parameters rule_parameters) = Ok valid →
  ∃ days, 0 ≤ days ∧ valid = <["DaysBeforeUnused" := PInt days]> rule_parameters.
Proof.
  rewrite evaluate_parameters_cases.
  destruct (rule_parameters !! "DaysBeforeUnused") as [given |]; [| discriminate].
  destruct (truthy given).
  - destruct (result_of (IAM.py_int given)) as [days | e]; [| destruct e; discriminate].
    destruct (Z.ltb_spec days 0); [discriminate |].
    intros [= <-]. by exists days.
  - intros [= <-]. by exists 90.
Qed.

(** The outcome of the comparison for a role, by cases on the response
    of [get_role], when DaysBeforeUnused is an integer. *)
Lemma role_compliance_result (CURRENT_TIME : IAM.datetime) (iam_client : IAM.iam_client)
    (valid_rule_parameters : gmap string pyval) (name : string) (days : Z) :
  valid_rule_parameters !! "DaysBeforeUnused" = Some (PInt days) →
  result_of (role_compliance CURRENT_TIME iam_client valid_rule_parameters (PStr name)) =
  match IAM.get_role iam_client name with
  | None => Raise ApiError
  | Some user_data =>
      match IAM.RoleLastUsed (IAM.Role user_data) with
      | None => Raise (KeyError "RoleLastUsed")
      | Some last_used =>
          if IAM.role_last_used_truthy last_used then
            match IAM.LastUsedDate last_used with
            | Some date => Ok (IAM.timedelta_days CURRENT_TIME date <=? days)
            | None => Raise (KeyError "LastUsedDate")
            end
          else
            match IAM.CreateDate (IAM.Role user_data) with
            | Some date => Ok (IAM.timedelta_days CURRENT_TIME date <=? days)
            | None => Raise (KeyError "CreateDate")
            end
      end
  end.
Proof.
  intros Hdays. unfold role_compliance, IAM.call_get_role.
  destruct (IAM.get_role iam_client name) as [user_data |]; [| reflexivity].
  cbn -[lookup IAM.timedelta_days Z.leb].
  destruct (IAM.RoleLastUsed (IAM.Role user_data)) as [last_used |]; [| reflexivity].
  cbn -[lookup IAM.timedelta_days Z.leb].
  destruct (IAM.role_last_used_truthy last_used).
  - destruct (IAM.LastUsedDate last_used); [| reflexivity].
    cbn -[lookup IAM.timedelta_days Z.leb]. by rewrite Hdays.
  - destruct (IAM.CreateDate (IAM.Role user_data)); [| reflexivity].
    cbn -[lookup IAM.timedelta_days Z.leb]. by rewrite Hdays.
Qed.

(** X15.  With the parameters that [evaluate_parameters] returned, the
    evaluation of a role raises only for what [get_role] answers: it
    returns exactly when [get_role] answers with a 'RoleLastUsed' that
    holds a 'LastUsedDate', or that is empty while 'CreateDate' is
    present.  It raises [KeyError] when 'RoleLastUsed' is absent, when
    'RoleLastUsed' is not empty and holds no 'LastUsedDate', and when
    'RoleLastUsed' is empty and 'CreateDate' is absent. *)
Theorem role_evaluation_returns_iff
    (CURRENT_TIME : IAM.datetime) (iam_client : IAM.iam_client)
    (rule_parameters valid : gmap string pyval) (name : string)
    (evaluations : list Evaluation) :
  result_of (IAM.evaluate_parameters rule_parameters) = Ok valid →
  let run := IAM.evaluate_periodic_body CURRENT_TIME iam_client valid (PStr name)
               evaluations in
  ((∃ out, result_of run = Ok out) ↔
   ∃ user_data last_used,
     IAM.get_role iam_client name = Some user_data ∧
     IAM.RoleLastUsed (IAM.Role user_data) = Some last_used ∧
     (is_Some (IAM.LastUsedDate last_used) ∨
      (IAM.role_last_used_truthy last_used = false ∧
       is_Some (IAM.CreateDate (IAM.Role user_data))))) ∧
  (∀ user_data, IAM.get_role iam_client name = Some user_data →
     (IAM.RoleLastUsed (IAM.Role user_data) = None →
      result_of run = Raise (KeyError "RoleLastUsed")) ∧
     (∀ last_used, IAM.RoleLastUsed (IAM.Role user_data) = Some last_used →
        (IAM.role_last_used_truthy last_used = true → IAM.LastUsedDate last_used = None →
         result_of run = Raise (KeyError "LastUsedDate")) ∧
        (IAM.role_last_used_truthy last_used = false →
         IAM.CreateDate (IAM.Role user_data) = None →
         result_of run = Raise (KeyError "CreateDate")))).
Proof.
  intros Hvalid run.
  destruct (evaluate_parameters_returns_days _ _ Hvalid) as (days & _ & ->).
  assert (result_of run =
          match result_of (role_compliance CURRENT_TIME iam_client
                             (<["DaysBeforeUnused" := PInt days]> rule_parameters)
                             (PStr name)) with
          | Ok b => Ok (evaluations ++ [role_verdict (PStr name) b])
          | Raise e => Raise e
          end) as Hrun.
  { subst run. rewrite iam_body_appending, !result_of_bind.
    by destruct (result_of (role_compliance _ _ _ _)). }
  rewrite (role_compliance_result _ _ _ _ days) in Hrun by apply lookup_insert_eq.
  rewrite Hrun. clear Hrun Hvalid. split.
  - split.
    + intros (out & Hout).
      destruct (IAM.get_role iam_client name) as [user_data |]; [| discriminate].
      destruct (IAM.RoleLastUsed (IAM.Role user_data)) as [last_used |] eqn:Hlast;
        [| discriminate].
      exists user_data, last_used. split; [reflexivity |]. split; [exact Hlast |].
      destruct (IAM.role_last_used_truthy last_used).
      * left. destruct (IAM.LastUsedDate last_used); [eauto | discriminate].
      * right. split; [reflexivity |].
        destruct (IAM.CreateDate (IAM.Role user_data)); [eauto | discriminate].
    + intros (user_data & last_used & -> & -> & [[date Hdate] | [Hempty [date Hdate]]]).
      * unfold IAM.role_last_used_truthy. rewrite Hdate. eauto.
      * rewrite Hempty, Hdate. eauto.
  - intros user_data ->. split.
    + by intros ->.
    + intros last_used ->. split.
      * by intros -> ->.
      * by intros -> ->.
Qed.

Lemma role_evaluation_returns_iff_witness :
  ∃ out,
    result_of (IAM.evaluate_periodic_body Examples.now MoreExamples.test_iam
                 (<["DaysBeforeUnused" := PInt 90]> {[ "DaysBeforeUnused" := PStr "90" ]})
                 (PStr "config-rule") []) = Ok out.
Proof.
  apply (role_evaluation_returns_iff Examples.now MoreExamples.test_iam
           {[ "DaysBeforeUnused" := PStr "90" ]} _ "config-rule" []).
  - vm_compute. reflexivity.
  - exists MoreExamples.test_role, MoreExamples.test_last_used.
    split; [reflexivity |]. split; [reflexivity |]. left. by eexists.
Defined.

(** ** Validating the parameters again *)

(** X17.  The parameters that [evaluate_parameters] returns are valid
    again, and validating them again changes nothing unless
    DaysBeforeUnused was validated to 0: the number 0 is falsy, and a
    second validation replaces it by 90. *)
Theorem validated_parameters_validate_again (rule_parameters valid : gmap string pyval) :
  result_of (IAM.evaluate_parameters rule_parameters) = Ok valid →
  ∃ days,
    0 ≤ days ∧ valid !! "DaysBeforeUnused" = Some (PInt days) ∧
    IAM.evaluate_parameters valid =
    ret (if days =? 0 then <["DaysBeforeUnused" := PInt 90]> valid else valid).
Proof.
  intros H. destruct (evaluate_parameters_returns_days _ _ H) as (days & Hdays & ->).
  exists days. split; [exact Hdays |]. split; [apply lookup_insert_eq |].
  rewrite evaluate_parameters_cases, lookup_insert_eq. cbn [truthy].
  destruct (Z.eqb_spec days 0) as [-> | Hne]; cbn [negb]; [reflexivity |].
  cbn [IAM.py_int ret result_of snd].
  destruct (Z.ltb_spec days 0); [lia |]. by rewrite insert_insert_eq.
Qed.

Lemma validated_parameters_validate_again_witness :
  ∃ days,
    0 ≤ days ∧
    (<["DaysBeforeUnused" := PInt 0]> {[ "DaysBeforeUnused" := PStr "0" ]} : gmap string pyval)
      !! "DaysBeforeUnused" = Some (PInt days) ∧
    IAM.evaluate_parameters
      (<["DaysBeforeUnused" := PInt 0]> {[ "DaysBeforeUnused" := PStr "0" ]}) =
    ret (if days =? 0
         then <["DaysBeforeUnused" := PInt 90]>
                (<["DaysBeforeUnused" := PInt 0]> {[ "DaysBeforeUnused" := PStr "0" ]})
         else <["DaysBeforeUnused" := PInt 0]> {[ "DaysBeforeUnused" := PStr "0" ]}).
Proof.
  apply (validated_parameters_validate_again {[ "DaysBeforeUnused" := PStr "0" ]}).
  vm_compute. reflexivity.
Defined.

(** ** Runs of the IAM rule *)

(** X18.  When the first response of [select_resource_config] holds no
    result and no token, a run of the IAM rule makes this one call, none
    to [get_role], and returns no verdict; it does not look at the
    parameters, which may lack DaysBeforeUnused. *)
Theorem iam_no_role_no_verdict
    (CURRENT_TIME : IAM.datetime) (cf : IAM.client_factory)
    (valid_rule_parameters : gmap string pyval)
    (response : IAM.select_resource_config_response)
    (rest : list IAM.select_resource_config_response) :
  IAM.select_resource_config (IAM.build_config cf) = response :: rest →
  IAM.Results response = [] →
  IAM.NextToken response = None →
  IAM.evaluate_periodic CURRENT_TIME cf valid_rule_parameters =
  ([select_resource_config_ev IAM.sql 20 None], Ok []).
Proof.
  intros Hscript Hresults Htoken.
  unfold IAM.evaluate_periodic, IAM.describe_roles, call_api. rewrite Hscript.
  destruct rest; simpl; rewrite Hresults, Htoken; reflexivity.
Qed.

Lemma iam_no_role_no_verdict_witness :
  IAM.evaluate_periodic Examples.now
    {| IAM.build_iam := Examples.iam;
       IAM.build_config :=
         {| IAM.select_resource_config :=
              [ {| IAM.Results := []; IAM.NextToken := None |} ] |} |} ∅ =
  ([select_resource_config_ev IAM.sql 20 None], Ok []).
Proof.
  apply (iam_no_role_no_verdict Examples.now _ ∅
           {| IAM.Results := []; IAM.NextToken := None |} []); reflexivity.
Defined.

Lemma resource_name_of_trace (result : json_text) :
  trace_of (IAM.resource_name_of result) = [].
Proof.
  destruct result as [| v]; [reflexivity |]. destruct v; try reflexivity.
  unfold IAM.resource_name_of. simpl. by destruct (d !! "resourceName").
Qed.

Lemma role_compliance_trace (CURRENT_TIME : IAM.datetime) (iam_client : IAM.iam_client)
    (valid_rule_parameters : gmap string pyval) (username : pyval) :
  trace_of (role_compliance CURRENT_TIME iam_client valid_rule_parameters username) =
  [get_role_ev username].
Proof.
  unfold role_compliance, IAM.call_get_role.
  destruct username; try reflexivity.
  destruct (IAM.get_role iam_client s) as [user_data |]; [| reflexivity].
  cbn -[lookup IAM.timedelta_days Z.leb].
  destruct (IAM.RoleLastUsed (IAM.Role user_data)) as [last_used |]; [| reflexivity].
  cbn -[lookup IAM.timedelta_days Z.leb].
  destruct (IAM.role_last_used_truthy last_used).
  - destruct (IAM.LastUsedDate last_used); [| reflexivity].
    cbn -[lookup IAM.timedelta_days Z.leb].
    destruct (valid_rule_parameters !! "DaysBeforeUnused") as [[] |]; reflexivity.
  - destruct (IAM.CreateDate (IAM.Role user_data)); [| reflexivity].
    cbn -[lookup IAM.timedelta_days Z.leb].
    destruct (valid_rule_parameters !! "DaysBeforeUnused") as [[] |]; reflexivity.
Qed.

Section RolesRun.

Variable CURRENT_TIME : IAM.datetime.
Variable iam_client : IAM.iam_client.
Variable valid_rule_parameters : gmap string pyval.
Variable p : pyval → bool.

Local Abbreviation body :=
  (IAM.evaluate_periodic_body CURRENT_TIME iam_client valid_rule_parameters).
Let verdicts (names : list pyval) := map (λ name, role_verdict name (p name)) names.

Lemma for_page_run (results : list json_text) (page : list pyval)
    (acc : list Evaluation) :
  Forall2 (λ result name, result_of (IAM.resource_name_of result) = Ok name) results page →
  (∀ name, name ∈ page →
     result_of (role_compliance CURRENT_TIME iam_client valid_rule_parameters name) =
     Ok (p name)) →
  for_ results (λ result acc, let* name := IAM.resource_name_of result in body name acc) acc =
  (map get_role_ev page, Ok (acc ++ verdicts page)).
Proof.
  intros Hpage. revert acc.
  induction Hpage as [| result name results page Hname _ IH]; intros acc Hp; simpl.
  - by rewrite app_nil_r.
  - rewrite (W_returns _ _ Hname), resource_name_of_trace.
    change (@nil event, Ok name) with (ret name). rewrite bind_ret_l.
    rewrite iam_body_appending, bind_assoc.
    rewrite (W_returns _ _ (Hp name (list_elem_of_here _ _))), role_compliance_trace.
    rewrite !bind_Ok. cbn [ret trace_of result_of fst snd app].
    rewrite bind_Ok, bind_ret_l.
    rewrite IH by (intros n Hn; apply Hp; by apply list_elem_of_further).
    cbn [trace_of result_of fst snd app]. by rewrite <- app_assoc.
Qed.

Lemma describe_roles_loop_run (script : list IAM.select_resource_config_response) :
  ∀ response pages token acc,
    paged IAM.NextToken (response :: script) = true →
    truthy_tokens IAM.NextToken (response :: script) = true →
    role_pages (response :: script) pages →
    (∀ name, name ∈ concat pages →
       result_of (role_compliance CURRENT_TIME iam_client valid_rule_parameters name) =
       Ok (p name)) →
    IAM.describe_roles_loop body response script acc =
    (tail (roles_trace token (response :: script) pages),
     Ok (acc ++ verdicts (concat pages))).
Proof.
  induction script as [| response' script IH];
    intros response pages token acc Hpaged Htruthy Hpages Hp;
    apply paged_cons in Hpaged as [[? Hlast] | (next_token & Htoken & Hrest)];
    try discriminate;
    inversion Hpages as [| ? page ? pages' Hpage Hpages']; subst;
    cbn [IAM.describe_roles_loop];
    rewrite (for_page_run _ page)
      by (try exact Hpage; intros n Hn; apply Hp; simpl; apply elem_of_app; by left);
    rewrite bind_Ok.
  - inversion Hpages'; subst. rewrite Hlast.
    cbn [roles_trace tail ret trace_of result_of fst snd concat].
    by rewrite !app_nil_r.
  - rewrite Htoken. unfold call_api, log. rewrite bind_Ok.
    unfold truthy_tokens in Htruthy. cbn [forallb] in Htruthy. rewrite Htoken in Htruthy.
    apply andb_prop in Htruthy as [-> Htruthy].
    rewrite (IH _ pages' (Some next_token)); try done.
    2: { intros n Hn. apply Hp. simpl. apply elem_of_app. by right. }
    inversion Hpages' as [| ? page' ? pages'' _ _]; subst.
    cbn [roles_trace tail trace_of result_of fst snd concat]. rewrite Htoken.
    f_equal. f_equal. unfold verdicts.
    by rewrite (map_app _ page (page' ++ concat pages'')), app_assoc.
Qed.

End RolesRun.

(** X19.  A run of the IAM rule over [N] pages of role names evaluates
    the roles of a page before it asks for the next page: after each call
    of [select_resource_config] it calls [get_role] once for each name of
    the response, in order, and only then makes the next call with the
    token of the response.  It never sleeps.  When the comparison returns
    [p name] for each role, it returns their verdicts in the order of the
    names. *)
Theorem iam_run_interleaves_pages_and_roles
    (CURRENT_TIME : IAM.datetime) (cf : IAM.client_factory)
    (valid_rule_parameters : gmap string pyval)
    (pages : list (list pyval)) (p : pyval → bool) :
  let script := IAM.select_resource_config (IAM.build_config cf) in
  let run := IAM.evaluate_periodic CURRENT_TIME cf valid_rule_parameters in
  paged IAM.NextToken script = true →
  truthy_tokens IAM.NextToken script = true →
  role_pages script pages →
  (∀ name, name ∈ concat pages →
     result_of (role_compliance CURRENT_TIME (IAM.build_iam cf) valid_rule_parameters name) =
     Ok (p name)) →
  trace_of run = roles_trace None script pages ∧
  result_of run = Ok (map (λ name, role_verdict name (p name)) (concat pages)) ∧
  count_sleeps (trace_of run) = 0%nat.
Proof.
  intros script run Hpaged Htruthy Hpages Hp.
  assert (run = (roles_trace None script pages,
                 Ok (map (λ name, role_verdict name (p name)) (concat pages)))) as ->.
  { subst run. unfold IAM.evaluate_periodic, IAM.describe_roles, call_api. fold script.
    destruct script as [| response rest]; [discriminate |].
    rewrite (describe_roles_loop_run _ _ _ p _ _ pages None) by done.
    unfold log. rewrite bind_Ok. cbn [trace_of result_of fst snd app].
    inversion Hpages; subst. reflexivity. }
  cbn [trace_of result_of fst snd]. split; [reflexivity |]. split; [reflexivity |].
  clear. unfold count_sleeps. revert pages. generalize (@None string).
  induction script as [| response rest IH]; intros token pages; [reflexivity |].
  destruct pages as [| page pages]; [reflexivity |].
  cbn [roles_trace List.filter is_sleep]. rewrite List.filter_app, length_app, IH.
  clear. induction page as [| name page IH]; [reflexivity | exact IH].
Qed.

Lemma iam_run_interleaves_pages_and_roles_witness :
  trace_of (IAM.evaluate_periodic Examples.now Examples.iam_factory Examples.ninety_days) =
  [ select_resource_config_ev IAM.sql 20 None;
    get_role_ev (PStr "role-a");
    select_resource_config_ev IAM.sql 20 (Some "abc");
    get_role_ev (PStr "role-b") ].
Proof.
  apply (iam_run_interleaves_pages_and_roles Examples.now Examples.iam_factory
           Examples.ninety_days [[PStr "role-a"]; [PStr "role-b"]]
           (λ name, match name with PStr "role-a" => true | _ => false end)).
  - reflexivity.
  - reflexivity.
  - repeat constructor.
  - intros name Hname. simpl in Hname.
    apply elem_of_cons in Hname as [-> | Hname]; [reflexivity |].
    apply list_elem_of_singleton in Hname as ->. reflexivity.
Defined.

(** X20.  A response of [select_resource_config] that carries the
    empty string as 'NextToken' costs one call: after the names of the
    response, [describe_roles] calls [select_resource_config] with that
    token, and then ends without yielding anything of what the call
    returned. *)
Theorem describe_roles_fetches_after_empty_token
    (config_client : IAM.config_client)
    (response response' : IAM.select_resource_config_response)
    (rest : list IAM.select_resource_config_response) (page : list pyval) :
  IAM.select_resource_config config_client = response :: response' :: rest →
  IAM.NextToken response = Some EmptyString →
  Forall2 (λ result name, result_of (IAM.resource_name_of result) = Ok name)
    (IAM.Results response) page →
  IAM.list_describe_roles config_client =
  ([ select_resource_config_ev IAM.sql 20 None;
     select_resource_config_ev IAM.sql 20 (Some EmptyString) ],
   Ok page).
Proof.
  intros Hscript Htoken Hpage.
  unfold IAM.list_describe_roles, IAM.describe_roles, call_api. rewrite Hscript.
  cbn [IAM.describe_roles_loop]. rewrite Htoken.
  assert (∀ acc, for_ (IAM.Results response)
            (λ result acc, let* name := IAM.resource_name_of result in
                           IAM.collect_names name acc) acc = ret (acc ++ page)) as Hfor.
  { induction Hpage as [| result name results page Hname _ IH]; intros acc; simpl.
    - by rewrite app_nil_r.
    - rewrite (W_returns _ _ Hname), resource_name_of_trace.
      change (@nil event, Ok name) with (ret name). rewrite bind_ret_l.
      unfold IAM.collect_names at 1. rewrite bind_ret_l, IH. by rewrite <- app_assoc. }
  rewrite Hfor.
  reflexivity.
Qed.

Lemma describe_roles_fetches_after_empty_token_witness :
  IAM.list_describe_roles Examples.empty_token_roles =
  ([ select_resource_config_ev IAM.sql 20 None;
     select_resource_config_ev IAM.sql 20 (Some EmptyString) ],
   Ok [PStr "role-a"]).
Proof.
  apply (describe_roles_fetches_after_empty_token Examples.empty_token_roles
           {| IAM.Results := [Examples.role_result "role-a"];
              IAM.NextToken := Some EmptyString |}
           {| IAM.Results := [Examples.role_result "role-b"]; IAM.NextToken := None |}
           [] [PStr "role-a"]).
  - reflexivity.
  - reflexivity.
  - repeat constructor.
Defined.

(** X21.  A run of the IAM rule returns no verdict at all when the
    evaluation of one role raises: when the comparison returns for the
    roles listed before it and raises for it, the run raises the same
    exception, whatever the roles after it are. *)
Theorem iam_run_raises_with_one_role
    (CURRENT_TIME : IAM.datetime) (cf : IAM.client_factory)
    (valid_rule_parameters : gmap string pyval)
    (before after : list pyval) (username : pyval) (bs : list bool) (e : exn) :
  result_of (IAM.list_describe_roles (IAM.build_config cf)) =
    Ok (before ++ username :: after) →
  Forall2 (λ name b,
      result_of (role_compliance CURRENT_TIME (IAM.build_iam cf)
                   valid_rule_parameters name) = Ok b) before bs →
  result_of (role_compliance CURRENT_TIME (IAM.build_iam cf)
               valid_rule_parameters username) = Raise e →
  result_of (IAM.evaluate_periodic CURRENT_TIME cf valid_rule_parameters) = Raise e.
Proof.
  intros Hnames Hbefore Hrole. unfold IAM.evaluate_periodic.
  rewrite (describe_roles_names _ _ Hnames).
  apply for_raises with (acc' := [] ++ zip_with role_verdict before bs).
  - apply (for_appending _ _ _ _ _ (iam_body_appending _ _ _)).
    clear Hnames. induction Hbefore as [| name b before bs Hb _ IH]; [constructor |].
    simpl. constructor; [| exact IH]. by rewrite result_of_bind, Hb.
  - rewrite iam_body_appending, !result_of_bind, Hrole. reflexivity.
Qed.

Lemma iam_run_raises_with_one_role_witness :
  result_of (IAM.evaluate_periodic Examples.now
               {| IAM.build_iam :=
                    {| IAM.get_role := λ name,
                         if bool_decide (name = "role-a") then Some Examples.used_role
                         else None |};
                  IAM.build_config := Examples.paged_roles |}
               Examples.ninety_days) = Raise ApiError.
Proof.
  apply (iam_run_raises_with_one_role Examples.now _ Examples.ninety_days
           [PStr "role-a"] [] (PStr "role-b") [true] ApiError).
  - vm_compute. reflexivity.
  - repeat constructor.
  - vm_compute. reflexivity.
Defined.

(** X22.  [evaluate_parameters] turns only the [ValueError] of [int]
    into [InvalidParametersError]: a DaysBeforeUnused that is a non-empty
    list or a non-empty dict raises [TypeError].  A DaysBeforeUnused that
    is an integer other than 0 is taken as it is when it is positive and
    rejected when it is negative, and [True] is taken as 1. *)
Theorem evaluate_parameters_on_other_types (rule_parameters : gmap string pyval) :
  (∀ x l, rule_parameters !! "DaysBeforeUnused" = Some (PList (x :: l)) →
     result_of (IAM.evaluate_parameters rule_parameters) = Raise TypeError) ∧
  (∀ d, rule_parameters !! "DaysBeforeUnused" = Some (PDict d) → d ≠ ∅ →
     result_of (IAM.evaluate_parameters rule_parameters) = Raise TypeError) ∧
  (∀ n, rule_parameters !! "DaysBeforeUnused" = Some (PInt n) → 0 < n →
     result_of (IAM.evaluate_parameters rule_parameters) =
     Ok (<["DaysBeforeUnused" := PInt n]> rule_parameters)) ∧
  (∀ n, rule_parameters !! "DaysBeforeUnused" = Some (PInt n) → n < 0 →
     result_of (IAM.evaluate_parameters rule_parameters) =
     Raise (InvalidParametersError IAM.NEGATIVE)) ∧
  (rule_parameters !! "DaysBeforeUnused" = Some (PBool true) →
   result_of (IAM.evaluate_parameters rule_parameters) =
   Ok (<["DaysBeforeUnused" := PInt 1]> rule_parameters)).
Proof.
  rewrite evaluate_parameters_cases. repeat split.
  - by intros x l ->.
  - intros d -> Hd. simpl. by rewrite bool_decide_eq_false_2.
  - intros n -> Hn. simpl.
    destruct (Z.eqb_spec n 0); [lia |]. simpl. by destruct (Z.ltb_spec n 0); [lia |].
  - intros n -> Hn. simpl.
    destruct (Z.eqb_spec n 0); [lia |]. simpl. by destruct (Z.ltb_spec n 0); [| lia].
  - by intros ->.
Qed.

Lemma evaluate_parameters_on_other_types_witness :
  result_of (IAM.evaluate_parameters {[ "DaysBeforeUnused" := PList [PInt 90] ]}) =
  Raise TypeError ∧
  result_of (IAM.evaluate_parameters {[ "DaysBeforeUnused" := PInt 30 ]}) =
  Ok (<["DaysBeforeUnused" := PInt 30]> {[ "DaysBeforeUnused" := PInt 30 ]}).
Proof.
  split.
  - apply (evaluate_parameters_on_other_types {[ "DaysBeforeUnused" := PList [PInt 90] ]})
      with (x := PInt 90) (l := []). reflexivity.
  - apply (evaluate_parameters_on_other_types {[ "DaysBeforeUnused" := PInt 30 ]});
      [reflexivity | lia].
Defined.

(** ** Items that the filter cannot read *)

Lemma filter_raises {A} (f : A → W bool) (before after : list A) (x : A) (e : exn) :
  (∀ y, y ∈ before → ∃ b, result_of (f y) = Ok b) →
  result_of (f x) = Raise e →
  result_of (filter_ f (before ++ x :: after)) = Raise e.
Proof.
  intros Hbefore Hx. induction before as [| y before IH]; simpl.
  - by rewrite result_of_bind, Hx.
  - destruct (Hbefore y) as (b & Hy); [apply list_elem_of_here |].
    rewrite result_of_bind, Hy, result_of_bind, IH; [reflexivity |].
    intros z Hz. apply Hbefore. by apply list_elem_of_further.
Qed.

(** X23.  [filter_to_only_albs] raises as soon as [is_alb] raises on an
    item of the first batch, for instance on an item without
    'configuration': when [is_alb] returns on the items before it, the
    filter raises the exception of [is_alb] and returns none of the items,
    whatever follows in the batch and whatever keys are unprocessed. *)
Theorem filter_raises_on_unreadable_item
    (config_client : ALB.config_client) (all_elbv2 : list ALB.resource_identifier)
    (response : ALB.batch_get_resource_config_response)
    (rest : list ALB.batch_get_resource_config_response)
    (before after : list ALB.base_configuration_item)
    (item : ALB.base_configuration_item) (e : exn) :
  all_elbv2 ≠ [] →
  ALB.batch_get_resource_config config_client (map ALB.key_of all_elbv2) =
    response :: rest →
  ALB.baseConfigurationItems response = before ++ item :: after →
  forallb is_alb_defined before = true →
  result_of (ALB.is_alb item) = Raise e →
  result_of (ALB.filter_to_only_albs config_client all_elbv2) = Raise e.
Proof.
  intros Hne Hscript Hitems Hbefore Hitem. unfold ALB.filter_to_only_albs.
  rewrite Hscript. destruct all_elbv2 as [| elb all_elbv2]; [done |].
  cbn [map ALB.filter_to_only_albs_loop]. rewrite result_of_call_api, result_of_bind.
  rewrite Hitems, (filter_raises _ _ _ _ e); [reflexivity | | exact Hitem].
  intros y Hy. rewrite forallb_forall in Hbefore.
  specialize (Hbefore y (proj1 (list_elem_of_In _ _) Hy)).
  unfold is_alb_defined in Hbefore.
  destruct (result_of (ALB.is_alb y)) as [b |]; [eauto | discriminate].
Qed.

Lemma filter_raises_on_unreadable_item_witness :
  result_of (ALB.filter_to_only_albs
               {| ALB.list_discovered_resources := [];
                  ALB.batch_get_resource_config := λ _,
                    [ {| ALB.baseConfigurationItems :=
                           [ Examples.item "application" "arn1";
                             {| ALB.item_resourceType := ALB.DEFAULT_RESOURCE_TYPE;
                                ALB.item_resourceId := "arn2";
                                ALB.configuration := None |} ];
                         ALB.unprocessedResourceKeys := None |} ] |}
               [Examples.identifier "arn1"; Examples.identifier "arn2"]) =
  Raise (KeyError "configuration").
Proof.
  apply (filter_raises_on_unreadable_item _
           [Examples.identifier "arn1"; Examples.identifier "arn2"]
           {| ALB.baseConfigurationItems :=
                [ Examples.item "application" "arn1";
                  {| ALB.item_resourceType := ALB.DEFAULT_RESOURCE_TYPE;
                     ALB.item_resourceId := "arn2";
                     ALB.configuration := None |} ];
              ALB.unprocessedResourceKeys := None |} []
           [Examples.item "application" "arn1"] []
           {| ALB.item_resourceType := ALB.DEFAULT_RESOURCE_TYPE;
              ALB.item_resourceId := "arn2";
              ALB.configuration := None |} (KeyError "configuration")).
  - discriminate.
  - reflexivity.
  - reflexivity.
  - vm_compute. reflexivity.
  - reflexivity.
Defined.

(** ** White space around the parameter *)

(** [int] strips the space and the characters from tab to carriage
    return, and no other control character: a DaysBeforeUnused between
    such white space is accepted, and one behind the file separator
    (code 28) is rejected. *)
Example params_between_white_space :
  IAM.int_of_string
    (String (ascii_of_nat 9) (String.append " 90 " (String (ascii_of_nat 10) EmptyString))) =
  Some 90.
Proof. vm_compute. reflexivity. Qed.

Example invalid_params_after_file_separator :
  result_of (IAM.evaluate_parameters
               {[ "DaysBeforeUnused" := PStr (String (ascii_of_nat 28) "5") ]}) =
  Raise (InvalidParametersError IAM.NOT_AN_INTEGER).
Proof. vm_compute. reflexivity. Qed.
